(** * CoinHealth: the follower pipeline of the dashboard and its API routes

    A shallow embedding of the TypeScript sources:

    - [app/page.tsx]: the dashboard ([parseFollowers], the search, the
      followers ordering, the coverage counters and their figures,
      [fetchData], [runFullScraper]);
    - the route behind [/api/scrape-twitter] ([POST], [processCryptoData]
      and the table [actualTwitterFollowers]);
    - the route behind [/api/scrape-coingecko] ([POST]);
    - the route behind [/api/followers] ([GET], [POST], [sampleData] and
      the module variable [scrapedCryptoData]);
    - the route behind [/api/scraper] ([POST]) and the component
      [ScraperControl] ([runScraper]).

    Conventions of the embedding.

    - A JavaScript number is a double (IEEE-754 binary64), written as
      the rational it is equal to, or NaN, or an infinity.  [double]
      rounds a rational to the nearest double, to the even one on a
      tie, and every arithmetic operation of the source rounds its
      exact result with it.  The sign of zero is not modelled.  A
      number that the code only passes on (a market capitalisation, a
      price) is written as the decimal of its literal.
    - A JavaScript string is a [string], one character per code unit
      (code units under 256).
    - Values that the code passes on without looking inside them (the
      merged records, request and response payloads, the stored
      snapshot) are JSON-like values [jsval].  Values the code computes
      with (the listing records handed to [processCryptoData]) are
      records with typed fields.
    - [Math.random], [new Date()] and the simulated waits are effects on
      an explicit [World]; [console.log] is not modelled. *)

From Stdlib Require Import QArith Qround Qcanon Qpower ZArith String Ascii List Lia DecimalString.
From stdpp Require Import gmap strings list.

Set Warnings "-register-all".

Local Open Scope string_scope.
Local Open Scope list_scope.

(** ** JavaScript values *)

Module JS.

(** *** Numbers *)

Inductive number :=
| NaN
| Infinity (negative : bool)
| Fin (q : Q).

Definition Qneg (q : Q) : bool := (Qnum q <? 0)%Z.
Definition Qzero (q : Q) : bool := (Qnum q =? 0)%Z.

(** An integer literal of the source; those of the program are far
    below 2^53, so they are doubles as they stand. *)
Definition of_Z (z : Z) : number := Fin (inject_Z z).

(** **** Rounding to binary64

    The doubles around a positive rational [q] are the multiples of
    [2 ^ exponent q]: the exponent is 52 below the binary exponent of
    [q] (53 significant bits), and -1074 for the subnormal numbers. *)
Definition pow2 (e : Z) : Q := Qpower 2 e.

(** The integer part of the binary logarithm of a positive rational. *)
Definition ilog2 (q : Q) : Z :=
  let k := (Z.log2 (Qnum q) - Z.log2 (Zpos (Qden q)))%Z in
  if Qle_bool (pow2 k) q then k else (k - 1)%Z.

Definition exponent (q : Q) : Z := Z.max (-1074) (ilog2 q - 52).

(** The integer nearest to [q], the even one on a tie. *)
Definition nearest_even (q : Q) : Z :=
  let f := Qfloor q in
  match Qcompare (q - inject_Z f) (1 # 2) with
  | Lt => f
  | Gt => (f + 1)%Z
  | Eq => if Z.even f then f else (f + 1)%Z
  end.

(** The double nearest to a positive rational; from [2 ^ 1024] on the
    result is infinite. *)
Definition round (q : Q) : number :=
  let e := exponent q in
  let x := Qred (inject_Z (nearest_even (q / pow2 e)) * pow2 e) in
  if Qle_bool (pow2 1024) x then Infinity false else Fin x.

Definition double (q : Q) : number :=
  let q := Qred q in
  match Qcompare q 0 with
  | Eq => Fin 0
  | Gt => round q
  | Lt => match round (- q) with
          | Fin x => Fin (Qred (- x))
          | _ => Infinity true
          end
  end.

(** The largest double that is not above a rational [q] with
    [0 <= q < 1]. *)
Definition double_below (q : Q) : Q :=
  let q := Qred q in
  match Qcompare q 0 with
  | Gt => let e := exponent q in
          Qred (inject_Z (Qfloor (q / pow2 e)) * pow2 e)
  | _ => 0
  end.

(** [a * b] *)
Definition mul (a b : number) : number :=
  match a, b with
  | NaN, _ | _, NaN => NaN
  | Fin x, Fin y => double (x * y)
  | Infinity s, Fin y | Fin y, Infinity s =>
      if Qzero y then NaN else Infinity (xorb s (Qneg y))
  | Infinity s, Infinity t => Infinity (xorb s t)
  end.

(** [a + b] *)
Definition add (a b : number) : number :=
  match a, b with
  | NaN, _ | _, NaN => NaN
  | Fin x, Fin y => double (x + y)
  | Infinity s, Fin _ | Fin _, Infinity s => Infinity s
  | Infinity s, Infinity t => if Bool.eqb s t then Infinity s else NaN
  end.

(** *** Strings *)

(** A string is falsy exactly when it is empty. *)
Definition truthy_string (s : string) : bool :=
  match s with EmptyString => false | _ => true end.

(** [s.includes(sub)] *)
Fixpoint includes (sub s : string) : bool :=
  if String.prefix sub s then true
  else match s with
       | EmptyString => false
       | String _ rest => includes sub rest
       end.

(** [s.replace(/[,]/g, empty)]: every comma is taken out. *)
Fixpoint remove_commas (s : string) : string :=
  match s with
  | EmptyString => EmptyString
  | String c rest =>
      if Ascii.eqb c "," then remove_commas rest
      else String c (remove_commas rest)
  end.

Definition digit_of (c : ascii) : option Z :=
  let n := Z.of_N (N_of_ascii c) in
  if ((48 <=? n) && (n <=? 57))%Z then Some (n - 48)%Z else None.

(** White space and line terminators among the code units under 256:
    TAB, LF, VT, FF, CR, SP and NBSP. *)
Definition is_space (c : ascii) : bool :=
  let n := N_of_ascii c in
  ((9 <=? n) && (n <=? 13) || (n =? 32) || (n =? 160))%N.

Fixpoint trim_start (s : string) : string :=
  match s with
  | String c rest => if is_space c then trim_start rest else s
  | EmptyString => EmptyString
  end.

(** The longest run of decimal digits at the head of [s], and the rest. *)
Fixpoint take_digits (s : string) : list Z * string :=
  match s with
  | String c rest =>
      match digit_of c with
      | Some d => let '(ds, r) := take_digits rest in (d :: ds, r)
      | None => ([], s)
      end
  | EmptyString => ([], EmptyString)
  end.

(** The value of a digit sequence read in base ten. *)
Definition decimal (ds : list Z) : Z :=
  fold_left (fun acc d => (10 * acc + d)%Z) ds 0%Z.

(** ExponentPart of a StrDecimalLiteral: [e] or [E], an optional sign
    and at least one digit; anything else is not part of the literal. *)
Definition exponent_part (s : string) : Z :=
  match s with
  | String c rest =>
      if (Ascii.eqb c "e" || Ascii.eqb c "E")%bool then
        let '(neg, r) :=
          match rest with
          | String "+" r => (false, r)
          | String "-" r => (true, r)
          | _ => (false, rest)
          end in
        match fst (take_digits r) with
        | [] => 0%Z
        | ds => if neg then (- decimal ds)%Z else decimal ds
        end
      else 0%Z
  | EmptyString => 0%Z
  end.

(** [Number.parseFloat(s)]: leading white space is skipped, the longest
    prefix that is a StrDecimalLiteral is read, NaN when there is none.
    The result is the double nearest to the decimal that was read. *)
Definition parseFloat (s : string) : number :=
  let t := trim_start s in
  let '(neg, u) :=
    match t with
    | String "+" r => (false, r)
    | String "-" r => (true, r)
    | _ => (false, t)
    end in
  if String.prefix "Infinity" u then Infinity neg
  else
    let '(ip, r1) := take_digits u in
    let '(fp, r2) :=
      match r1 with
      | String "." r => take_digits r
      | _ => ([], r1)
      end in
    match ip ++ fp with
    | [] => NaN
    | ds =>
        let m := if neg then (- decimal ds)%Z else decimal ds in
        let e := (exponent_part r2 - Z.of_nat (length fp))%Z in
        double (inject_Z m * Qpower 10 e)
    end.

(** [x.toFixed(digits)] for [x] below 10^21 (above, JavaScript switches
    to exponent notation; the program formats values under 1400 only):
    the integer nearest to [x * 10^digits], the larger one on a tie,
    written with [digits] digits after the point. *)
Definition digits_of_N (n : N) : string :=
  NilZero.string_of_uint (N.to_uint n).

Fixpoint zeros (k : nat) : string :=
  match k with O => EmptyString | S k' => String "0" (zeros k') end.

Definition toFixed (digits : nat) (x : Q) : string :=
  let neg := Qneg x in
  let a := if neg then Qopp x else x in
  let n := Z.to_N (Qfloor (a * inject_Z (10 ^ Z.of_nat digits) + (1 # 2))) in
  let s := digits_of_N n in
  let s := zeros (S digits - String.length s) +:+ s in
  let k := (String.length s - digits)%nat in
  let body :=
    match digits with
    | O => s
    | _ => substring 0 k s +:+ "." +:+ substring k digits s
    end in
  if neg then "-" +:+ body else body.

(** [x.toFixed(digits)] on any number. *)
Definition fixed (digits : nat) (x : number) : string :=
  match x with
  | NaN => "NaN"
  | Infinity negative => if negative then "-Infinity" else "Infinity"
  | Fin q => toFixed digits q
  end.

(** [String(z)] for an integer. *)
Definition string_of_Z (z : Z) : string :=
  if (z <? 0)%Z then "-" +:+ digits_of_N (Z.to_N (- z))
  else digits_of_N (Z.to_N z).

(** *** JSON-like values

    [JNative k] is the built-in that every object inherits from
    [Object.prototype] under the name [k]. *)
Inductive jsval :=
| JUndef
| JNull
| JBool (b : bool)
| JNum (q : Q)
| JStr (s : string)
| JArr (items : list jsval)
| JObj (props : list (string * jsval))
| JNative (name : string).

(** ToBoolean *)
Definition truthy (v : jsval) : bool :=
  match v with
  | JUndef | JNull => false
  | JBool b => b
  | JNum q => negb (Qzero q)
  | JStr s => truthy_string s
  | JArr _ | JObj _ | JNative _ => true
  end.

(** The property names of [Object.prototype]. *)
Definition object_prototype_names : list string :=
  [ "constructor"; "hasOwnProperty"; "isPrototypeOf";
    "propertyIsEnumerable"; "toLocaleString"; "toString"; "valueOf";
    "__defineGetter__"; "__defineSetter__"; "__lookupGetter__";
    "__lookupSetter__"; "__proto__" ].

Definition inherited (k : string) : jsval :=
  if existsb (String.eqb k) object_prototype_names then JNative k
  else JUndef.

(** The own property [k] of an object; of two bindings of one name the
    later one counts, as in an object literal and in [JSON.parse]. *)
Fixpoint own (k : string) (props : list (string * jsval)) : option jsval :=
  match props with
  | [] => None
  | (k', v) :: rest =>
      match own k rest with
      | Some w => Some w
      | None => if String.eqb k k' then Some v else None
      end
  end.

(** [v.k] and [v[k]]; [None] is the TypeError on [null] and
    [undefined].  Of the members of arrays and strings only [length]
    is modelled: the program reads no other name on them. *)
Definition get (v : jsval) (k : string) : option jsval :=
  match v with
  | JUndef | JNull => None
  | JObj props =>
      Some (match own k props with Some w => w | None => inherited k end)
  | JArr items =>
      Some (if String.eqb k "length"
            then JNum (inject_Z (Z.of_nat (length items))) else JUndef)
  | JStr s =>
      Some (if String.eqb k "length"
            then JNum (inject_Z (Z.of_nat (String.length s))) else JUndef)
  | JBool _ | JNum _ | JNative _ => Some JUndef
  end.

(** [table[key]] for an object literal whose values are strings. *)
Definition index (table : gmap string string) (key : string) : jsval :=
  match table !! key with
  | Some v => JStr v
  | None => inherited key
  end.

(** [v === 0] *)
Definition is_zero (v : jsval) : bool :=
  match v with JNum q => Qzero q | _ => false end.

(** [v === s] for a string [s] *)
Definition is_string (s : string) (v : jsval) : bool :=
  match v with JStr t => String.eqb t s | _ => false end.

(** [Array.isArray(v)] *)
Definition isArray (v : jsval) : bool :=
  match v with JArr _ => true | _ => false end.

(** The items of a value for which [Array.isArray] holds. *)
Definition items_of (v : jsval) : list jsval :=
  match v with JArr items => items | _ => [] end.

Definition string_or_null (o : option string) : jsval :=
  match o with Some s => JStr s | None => JNull end.

(** What is left of a value after [JSON.stringify] and [JSON.parse]:
    a property whose value is [undefined] or a function is dropped, an
    array item of that kind becomes [null].  Of the inherited built-ins
    only [__proto__] is an object, printed as [{}]; the others are
    functions. *)
Definition unprintable (v : jsval) : bool :=
  match v with
  | JUndef => true
  | JNative k => negb (String.eqb k "__proto__")
  | _ => false
  end.

Fixpoint json (v : jsval) : jsval :=
  match v with
  | JArr items =>
      JArr (map (fun x => if unprintable x then JNull else json x) items)
  | JObj props =>
      JObj ((fix each (ps : list (string * jsval)) :=
               match ps with
               | [] => []
               | (k, x) :: rest =>
                   if unprintable x then each rest
                   else (k, json x) :: each rest
               end) props)
  | JNative _ => JObj []
  | JUndef => JNull
  | _ => v
  end.

(** *** The world outside the program

    [entropy n] is the fraction whose double the [n]-th call of
    [Math.random] returns, [calendar n] the text of the [n]-th
    [new Date().toISOString()].  The trace keeps, in order, the waits
    and the visits of profile pages. *)
Inductive Event :=
| Sleep (ms : nat)
| Resolve (url : string).

Record World := mkWorld {
  entropy : nat -> N * positive;
  drawn : nat;
  calendar : nat -> string;
  dated : nat;
  trace : list Event
}.

Definition M (A : Type) : Type := World -> A * World.

#[global] Instance M_ret : MRet M := fun A (a : A) (w : World) => (a, w).

#[global] Instance M_bind : MBind M :=
  fun A B (k : A -> M B) (c : M A) (w : World) =>
    let '(a, w') := c w in k a w'.

Definition emit (e : Event) : M unit :=
  fun w => (tt, mkWorld (entropy w) (drawn w) (calendar w) (dated w)
                        (trace w ++ [e])).

(** [await new Promise((resolve) => setTimeout(resolve, ms))] *)
Definition sleep (ms : nat) : M unit := emit (Sleep ms).

(** [Math.random()]: a double in the interval from 0 to 1, 1 excluded;
    it is the double under the fraction that [entropy] gives. *)
Definition random : M Q :=
  fun w =>
    let '(n, d) := entropy w (drawn w) in
    (double_below (Z.of_N (n mod Npos d) # d),
     mkWorld (entropy w) (S (drawn w)) (calendar w) (dated w) (trace w)).

(** [new Date().toISOString()] *)
Definition now : M string :=
  fun w =>
    (calendar w (dated w),
     mkWorld (entropy w) (drawn w) (calendar w) (S (dated w)) (trace w)).

(** What a route handler answers: [NextResponse.json(body)] or the
    [catch] branch, [{ success: false, error }] with status 500. *)
Inductive Reply (A : Type) :=
| Ok (body : A)
| ServerError.
Arguments Ok {A} body.
Arguments ServerError {A}.

End JS.

Import JS.

(** ** The listing record on the wire

    An entry of [coinData] in the answer of [/api/scrape-coingecko], of
    [cryptoData] in the request to [/api/scrape-twitter] and of
    [defaultCryptoData].  [None] is [null] for the handle and the URL,
    and a missing property for the image. *)

Module Listing.

Record Coin := mkCoin {
  rank : Z;
  name : string;
  symbol : string;
  twitter_handle : option string;
  twitter_url : option string;
  market_cap : Q;
  price : Q;
  image : option string
}.

(** ToBoolean of a string-or-null field. *)
Definition present (o : option string) : bool :=
  match o with Some s => truthy_string s | None => false end.

End Listing.

(** ** The route [/api/scrape-twitter] *)

Module ScrapeTwitter.
Import Listing.

Definition actualTwitterFollowers : gmap string string :=
  list_to_map
    [ ("https://x.com/bitcoin", "5.2M");
      ("https://x.com/ethereum", "3.1M");
      ("https://x.com/Tether_to", "1.8M");
      ("https://x.com/BNBCHAIN", "2.4M");
      ("https://x.com/solana", "1.9M");
      ("https://x.com/Ripple", "3.5M");
      ("https://x.com/dogecoin", "2.8M");
      ("https://x.com/Cardano", "1.2M");
      ("https://x.com/avax", "890K");
      ("https://x.com/chainlink", "1.1M") ].

Definition defaultCryptoData : list Coin :=
  [ mkCoin 1 "Bitcoin" "BTC" (Some "bitcoin") (Some "https://x.com/bitcoin")
      (inject_Z 1280000000000) (6543221 # 100) None;
    mkCoin 2 "Ethereum" "ETH" (Some "ethereum") (Some "https://x.com/ethereum")
      (inject_Z 425000000000) (354218 # 100) None ].

(** [a > b] on numbers *)
Definition gt (a b : Q) : bool := negb (Qle_bool a b).

(** [coin.market_cap || 0] *)
Definition or_zero (q : Q) : Q := if Qzero q then 0 else q.

(** The [else] branch of [if (followers)]: a count made up from the
    market capitalisation. *)
Definition fallback (coin : Coin) : M jsval :=
  let marketCap := or_zero (market_cap coin) in
  r ← random;
  mret (JStr
    (if gt marketCap (inject_Z 100000000000)
     then fixed 1 (add (mul (Fin r) (of_Z 3)) (of_Z 2)) +:+ "M"
     else if gt marketCap (inject_Z 50000000000)
     then fixed 1 (add (mul (Fin r) (of_Z 2)) (of_Z 1)) +:+ "M"
     else if gt marketCap (inject_Z 10000000000)
     then fixed 0 (add (mul (Fin r) (of_Z 900)) (of_Z 500)) +:+ "K"
     else fixed 0 (add (mul (Fin r) (of_Z 500)) (of_Z 100)) +:+ "K")).

(** The visit of one profile page: the waits, the read of
    [actualTwitterFollowers[coin.twitter_url]] and the fallback. *)
Definition resolve (coin : Coin) (url : string) : M jsval :=
  sleep 500 ;; sleep 1200 ;; sleep 800 ;; sleep 400 ;;
  emit (Resolve url) ;;
  let followers := index actualTwitterFollowers url in
  if truthy followers then mret followers else fallback coin.

Definition record (coin : Coin) (handle url followers : jsval)
    (last_updated : string) : jsval :=
  JObj [ ("coin_name", JStr (name coin));
         ("symbol", JStr (symbol coin));
         ("twitter_handle", handle);
         ("twitter_url", url);
         ("followers", followers);
         ("market_cap", JNum (market_cap coin));
         ("price", JNum (price coin));
         ("rank", JNum (inject_Z (rank coin)));
         ("last_updated", JStr last_updated) ].

(** The body of the [for (const coin of cryptoData)] loop; the result
    is the object pushed on [scrapedData]. *)
Definition step (coin : Coin) : M jsval :=
  if (present (twitter_url coin) && present (twitter_handle coin))%bool then
    followers ← resolve coin (default EmptyString (twitter_url coin));
    stamp ← now;
    sleep 1000 ;;
    mret (record coin (string_or_null (twitter_handle coin))
                (string_or_null (twitter_url coin)) followers stamp)
  else
    stamp ← now;
    mret (record coin JNull JNull (JStr "No Twitter") stamp).

Fixpoint loop (cryptoData : list Coin) (scrapedData : list jsval)
    : M (list jsval) :=
  match cryptoData with
  | [] => mret scrapedData
  | coin :: rest =>
      pushed ← step coin;
      loop rest (scrapedData ++ [pushed])
  end.

(** The JSON answer of [processCryptoData]; the constant [message] and
    [method] fields and [success: true] are left out. *)
Record Scraped := mkScraped {
  scraped : nat;
  data : list jsval;
  timestamp : string
}.

Definition processCryptoData (cryptoData : list Coin) : M (Reply Scraped) :=
  scrapedData ← loop cryptoData [];
  stamp ← now;
  mret (Ok (mkScraped (length scrapedData) scrapedData stamp)).

(** The request body after [await request.json()].  [Unreadable]: the
    body is not JSON, or it is [null], so that [body.cryptoData]
    faults; both end in the [catch] branch.  [cryptoData = None]: the
    property is missing or falsy. *)
Inductive Body :=
| Unreadable
| Readable (cryptoData : option (list Coin)) (twitterUrls : jsval).

Definition POST (request : Body) : M (Reply Scraped) :=
  match request with
  | Unreadable => mret ServerError
  | Readable body_cryptoData body_twitterUrls =>
      let cryptoData := default [] body_cryptoData in
      let twitterAccounts :=
        if truthy body_twitterUrls then body_twitterUrls else JArr [] in
      match get twitterAccounts "length" with
      | None => mret ServerError
      | Some len =>
          if is_zero len then processCryptoData defaultCryptoData
          else processCryptoData cryptoData
      end
  end.

End ScrapeTwitter.

(** ** The route [/api/scrape-coingecko] *)

Module ScrapeCoinGecko.
Import Listing.

(** An entry of the table [coinGeckoData]. *)
Record Entry := mkEntry {
  rank : Z;
  name : string;
  symbol : string;
  slug : string;
  coingecko_url : string;
  twitter_pattern : string;
  twitter_handle : option string;
  market_cap : Q;
  price : Q
}.

(** The double quote character. *)
Definition quote : string := String "034" EmptyString.

Definition entry (rank : Z) (name symbol slug handle : string)
    (market_cap price : Q) : Entry :=
  mkEntry rank name symbol slug
    ("https://www.coingecko.com/en/coins/" +:+ slug)
    ("<a target=" +:+ quote +:+ "_blank" +:+ quote +:+ " href=" +:+ quote
       +:+ "https://twitter.com/" +:+ handle +:+ quote +:+ " rel=" +:+ quote
       +:+ "nofollow noopener" +:+ quote +:+ ">")
    (Some handle) market_cap price.

Definition coinGeckoData : list Entry :=
  [ entry 1 "Bitcoin" "BTC" "bitcoin" "bitcoin"
      (inject_Z 1280000000000) (6543221 # 100);
    entry 2 "Ethereum" "ETH" "ethereum" "ethereum"
      (inject_Z 425000000000) (354218 # 100);
    entry 3 "Tether USDt" "USDT" "tether" "Tether_to"
      (inject_Z 125000000000) 1;
    entry 4 "BNB" "BNB" "binancecoin" "BNBCHAIN"
      (inject_Z 98000000000) (67245 # 100);
    entry 5 "Solana" "SOL" "solana" "solana"
      (inject_Z 89000000000) (19567 # 100);
    entry 6 "XRP" "XRP" "ripple" "Ripple"
      (inject_Z 78000000000) (138 # 100);
    entry 7 "Dogecoin" "DOGE" "dogecoin" "dogecoin"
      (inject_Z 58000000000) (39 # 100);
    entry 8 "Cardano" "ADA" "cardano" "Cardano"
      (inject_Z 47000000000) (132 # 100);
    entry 9 "Avalanche" "AVAX" "avalanche-2" "avax"
      (inject_Z 38000000000) (9845 # 100);
    entry 10 "Chainlink" "LINK" "chainlink" "chainlink"
      (inject_Z 34000000000) (2378 # 100) ].

(** The two arrays the loop fills. *)
Record Found := mkFound {
  found_twitterAccounts : list string;
  found_coinData : list Coin
}.

(** The body of [for (const coin of coinGeckoData)]. *)
Definition visit (coin : Entry) (acc : Found) : M Found :=
  sleep 800 ;; sleep 300 ;; sleep 200 ;;
  let acc' :=
    if present (twitter_handle coin) then
      let twitterUrl := "https://x.com/" +:+ default EmptyString (twitter_handle coin) in
      mkFound
        (found_twitterAccounts acc ++ [twitterUrl])
        (found_coinData acc ++
           [ mkCoin (rank coin) (name coin) (symbol coin)
               (twitter_handle coin) (Some twitterUrl)
               (market_cap coin) (price coin)
               (Some ("https://assets.coingecko.com/coins/images/"
                        +:+ string_of_Z (rank coin * 100)
                        +:+ "/large/" +:+ slug coin +:+ ".png")) ])
    else
      mkFound
        (found_twitterAccounts acc)
        (found_coinData acc ++
           [ mkCoin (rank coin) (name coin) (symbol coin) None None
               (market_cap coin) (price coin) (Some EmptyString) ]) in
  (if (rank coin <? 10)%Z then sleep 500 else mret tt) ;;
  mret acc'.

Fixpoint loop (listing : list Entry) (acc : Found) : M Found :=
  match listing with
  | [] => mret acc
  | coin :: rest => acc' ← visit coin acc; loop rest acc'
  end.

(** The JSON answer; [success: true] and the constant [message] and
    [pattern_used] fields are left out. *)
Record Result := mkResult {
  totalCoins : nat;
  twitterAccounts : nat;
  coinData : list Coin;
  twitterUrls : list string;
  timestamp : string
}.

(** The handler with its table as an argument. *)
Definition scrape (listing : list Entry) : M (Reply Result) :=
  sleep 1000 ;;
  acc ← loop listing (mkFound [] []);
  stamp ← now;
  mret (Ok (mkResult (length (found_coinData acc))
                     (length (found_twitterAccounts acc))
                     (found_coinData acc)
                     (found_twitterAccounts acc)
                     stamp)).

Definition POST : M (Reply Result) := scrape coinGeckoData.

End ScrapeCoinGecko.

(** ** The route [/api/followers] *)

Module Followers.

Section Route.

(** [loaded n] is the text of the [n]-th [new Date().toISOString()]
    evaluated when the module is loaded. *)
Variable loaded : nat -> string.

Definition sample (n : nat) (coin_name symbol twitter_handle followers : string)
    (market_cap price : Q) (rank : Z) : jsval :=
  JObj [ ("coin_name", JStr coin_name);
         ("symbol", JStr symbol);
         ("twitter_handle", JStr twitter_handle);
         ("twitter_url", JStr ("https://x.com/" +:+ twitter_handle));
         ("followers", JStr followers);
         ("market_cap", JNum market_cap);
         ("price", JNum price);
         ("rank", JNum (inject_Z rank));
         ("last_updated", JStr (loaded n)) ].

Definition sampleData : list jsval :=
  [ sample 0 "Bitcoin" "BTC" "bitcoin" "5.2M"
      (inject_Z 1280000000000) (6543221 # 100) 1;
    sample 1 "Ethereum" "ETH" "ethereum" "3.1M"
      (inject_Z 425000000000) (354218 # 100) 2;
    sample 2 "Tether USDt" "USDT" "Tether_to" "1.8M"
      (inject_Z 125000000000) 1 3;
    sample 3 "BNB" "BNB" "BNBCHAIN" "2.4M"
      (inject_Z 98000000000) (67245 # 100) 4;
    sample 4 "Solana" "SOL" "solana" "1.9M"
      (inject_Z 89000000000) (19567 # 100) 5;
    sample 5 "XRP" "XRP" "Ripple" "3.5M"
      (inject_Z 78000000000) (138 # 100) 6;
    sample 6 "Dogecoin" "DOGE" "dogecoin" "2.8M"
      (inject_Z 58000000000) (39 # 100) 7;
    sample 7 "Cardano" "ADA" "Cardano" "1.2M"
      (inject_Z 47000000000) (132 # 100) 8 ].

(** The module variable [scrapedCryptoData] is the state threaded
    through the two handlers; it starts as the empty array. *)
Definition initial : list jsval := [].

(** [GET] answers with the JSON of this array. *)
Definition GET (scrapedCryptoData : list jsval) : list jsval :=
  if (0 <? length scrapedCryptoData)%nat then scrapedCryptoData
  else sampleData.

(** A request: its body is not JSON, so that [request.json()]
    rejects, or it is the JSON value [body]. *)
Inductive Request :=
| NotJson
| Json (body : jsval).

(** [POST] gives the new [scrapedCryptoData] and the answer, which
    is the [count] of [{ success: true, message, count }]. *)
Definition POST (request : Request) (scrapedCryptoData : list jsval)
    : list jsval * Reply nat :=
  match request with
  | NotJson => (scrapedCryptoData, ServerError)
  | Json body =>
      match get body "data" with
      | None => (scrapedCryptoData, ServerError)
      | Some body_data =>
          let scrapedCryptoData' :=
            if (truthy body_data && isArray body_data)%bool
            then items_of body_data else scrapedCryptoData in
          (scrapedCryptoData', Ok (length scrapedCryptoData'))
      end
  end.

End Route.

End Followers.

(** ** The dashboard, [app/page.tsx] *)

Module Dashboard.

(** [parseFollowers], the key of the "followers" ordering. *)
Definition parseFollowers (followers : string) : number :=
  if (negb (truthy_string followers) || String.eqb followers "0")%bool
  then of_Z 0
  else
    let num := parseFloat (remove_commas followers) in
    if (includes "M" followers || includes "m" followers)%bool
    then mul num (of_Z 1000000)
    else if (includes "K" followers || includes "k" followers)%bool
    then mul num (of_Z 1000)
    else num.

(** The predicates behind the counters [coinsWithTwitter] and
    [coinsWithFollowers]; [None] is the TypeError of a property read
    on [null] or [undefined]. *)
Definition withTwitter (coin : jsval) : option bool :=
  handle ← get coin "twitter_handle";
  Some (truthy handle).

Definition withFollowers (coin : jsval) : option bool :=
  followers ← get coin "followers";
  Some (truthy followers && negb (is_string "0" followers)
        && negb (is_string "No Twitter" followers))%bool.

(** [scrapingStep] *)
Inductive Step := idle | coingecko | twitter | complete.

(** The texts of [scrapingStatus], without their pictograms. *)
Inductive Status :=
| Blank
| StartingCoinGecko
| CoinGeckoFound (twitterAccounts totalCoins : nat)
| StartingTwitter
| TwitterScraped (scraped : nat)
| ScrapingComplete
| TwitterFailed
| CoinGeckoFailed
| Error.

(** The state of the component [CryptoDashboard] that the data flow
    uses; the search term, the sort key and [lastRefresh] are left
    out. *)
Record Page := mkPage {
  cryptoData : list jsval;
  loading : bool;
  scraping : bool;
  scrapingStatus : Status;
  scrapingStep : Step
}.

(** What the page is waiting for: a request in flight or a timer. *)
Inductive Task :=
| CoinGeckoRequest
| TwitterTimer (coinGeckoResult : ScrapeCoinGecko.Result)
| TwitterRequest (body : ScrapeTwitter.Body)
| StoreRequest (body : jsval)
| FollowersRequest (in_run : bool)
| ResetTimer.

(** How a request ends: the route answers; a response that is not
    [ok] comes back without the route having run; [fetch] rejects.
    A timer just fires. *)
Inductive Outcome := Answered | Refused | Lost.

Inductive Action :=
| Click
| Refresh
| Settle (i : nat) (outcome : Outcome).

(** The page, the module variable of [/api/followers], the world the
    routes run in and the pending tasks, oldest first. *)
Record System := mkSystem {
  page : Page;
  scrapedCryptoData : list jsval;
  world : World;
  pending : list Task
}.

Definition set_scraping (b : bool) (step : Step) (status : Status)
    (p : Page) : Page :=
  mkPage (cryptoData p) (loading p) b status step.

Definition set_status (step : Step) (status : Status) (p : Page) : Page :=
  mkPage (cryptoData p) (loading p) (scraping p) status step.

Definition set_loading (b : bool) (p : Page) : Page :=
  mkPage (cryptoData p) b (scraping p) (scrapingStatus p) (scrapingStep p).

Definition set_data (data : list jsval) (p : Page) : Page :=
  mkPage data (loading p) (scraping p) (scrapingStatus p) (scrapingStep p).

Section Run.

Variable loaded : nat -> string.

(** The component after mounting: [useEffect] has called
    [fetchData]. *)
Definition mounted (w : World) : System :=
  mkSystem (mkPage [] true false Blank idle) Followers.initial w
           [FollowersRequest false].

(** The start of [fetchData]. *)
Definition fetchData (in_run : bool) (s : System) : System :=
  mkSystem (set_loading true (page s)) (scrapedCryptoData s) (world s)
           (pending s ++ [FollowersRequest in_run]).

(** The end of [fetchData], and of [runFullScraper] when it was
    called from there. *)
Definition fetched (in_run : bool) (data : option (list jsval))
    (s : System) : System :=
  let p := match data with
           | Some d => set_data d (page s)
           | None => page s
           end in
  let p := set_loading false p in
  let p := if in_run
           then set_status (scrapingStep p) ScrapingComplete p else p in
  mkSystem p (scrapedCryptoData s) (world s) (pending s).

(** The start of [runFullScraper], up to the first [await].  The
    button is disabled while [scraping] is set. *)
Definition runFullScraper (s : System) : System :=
  if scraping (page s) then s
  else mkSystem (set_scraping true coingecko StartingCoinGecko (page s))
                (scrapedCryptoData s) (world s)
                (pending s ++ [CoinGeckoRequest]).

(** The [finally] block: the timer of five seconds. *)
Definition finally (s : System) : System :=
  mkSystem (page s) (scrapedCryptoData s) (world s)
           (pending s ++ [ResetTimer]).

Definition update (f : Page -> Page) (s : System) : System :=
  mkSystem (f (page s)) (scrapedCryptoData s) (world s) (pending s).

Definition spawn (t : Task) (s : System) : System :=
  mkSystem (page s) (scrapedCryptoData s) (world s) (pending s ++ [t]).

(** The continuation of [runFullScraper] and [fetchData] after the
    task [t], taken off the pending list, has ended with [o]. *)
Definition continue (t : Task) (o : Outcome) (s : System) : System :=
  match t, o with
  | CoinGeckoRequest, Answered =>
      let '(reply, w) := ScrapeCoinGecko.POST (world s) in
      let s := mkSystem (page s) (scrapedCryptoData s) w (pending s) in
      match reply with
      | Ok result =>
          finally
            (spawn (TwitterTimer result)
               (update (set_status twitter
                          (CoinGeckoFound
                             (ScrapeCoinGecko.twitterAccounts result)
                             (ScrapeCoinGecko.totalCoins result))) s))
      | ServerError =>
          finally (update (set_status idle CoinGeckoFailed) s)
      end
  | CoinGeckoRequest, Refused =>
      finally (update (set_status idle CoinGeckoFailed) s)
  | CoinGeckoRequest, Lost =>
      finally (update (set_status idle Error) s)
  | TwitterTimer result, _ =>
      spawn
        (TwitterRequest
           (ScrapeTwitter.Readable
              (Some (ScrapeCoinGecko.coinData result))
              (JArr (map JStr (ScrapeCoinGecko.twitterUrls result)))))
        (update (fun p => set_status (scrapingStep p) StartingTwitter p) s)
  | TwitterRequest body, Answered =>
      let '(reply, w) := ScrapeTwitter.POST body (world s) in
      let s := mkSystem (page s) (scrapedCryptoData s) w (pending s) in
      match reply with
      | Ok result =>
          spawn
            (StoreRequest
               (json (JObj [("data", JArr (ScrapeTwitter.data result))])))
            (update (set_status complete
                       (TwitterScraped (ScrapeTwitter.scraped result))) s)
      | ServerError => update (set_status idle TwitterFailed) s
      end
  | TwitterRequest _, Refused => update (set_status idle TwitterFailed) s
  | TwitterRequest _, Lost => s
  | StoreRequest body, Answered =>
      let '(stored, _) :=
        Followers.POST (Followers.Json body) (scrapedCryptoData s) in
      fetchData true (mkSystem (page s) stored (world s) (pending s))
  | StoreRequest _, Refused => fetchData true s
  | StoreRequest _, Lost => s
  | FollowersRequest in_run, Answered =>
      fetched in_run (Some (Followers.GET loaded (scrapedCryptoData s))) s
  | FollowersRequest in_run, _ => fetched in_run None s
  | ResetTimer, _ =>
      update (fun p => set_scraping false idle (scrapingStatus p) p) s
  end.

(** One step of the system.  [Settle i o] ends the [i]-th pending
    task; the refresh button is disabled while [loading] is set. *)
Definition react (a : Action) (s : System) : System :=
  match a with
  | Click => runFullScraper s
  | Refresh => if loading (page s) then s else fetchData false s
  | Settle i o =>
      match pending s !! i with
      | Some t =>
          continue t o
            (mkSystem (page s) (scrapedCryptoData s) (world s)
                      (delete i (pending s)))
      | None => s
      end
  end.

Definition run (actions : list Action) (s : System) : System :=
  fold_left (fun s a => react a s) actions s.

(** The states the system can be in. *)
Inductive reachable : System -> Prop :=
| reachable_mounted w : reachable (mounted w)
| reachable_react a s : reachable s -> reachable (react a s).

(** A run is under way: its listing request, its timer of three
    seconds or its resolution request is pending. *)
Definition busy (t : Task) : bool :=
  match t with
  | CoinGeckoRequest | TwitterTimer _ | TwitterRequest _ => true
  | _ => false
  end.

Definition active (s : System) : bool := existsb busy (pending s).

End Run.

End Dashboard.

(** ** Vocabulary of the statements *)

Module Shape.
Import Listing Dashboard.

Definition is_digit (c : ascii) : bool :=
  match digit_of c with Some _ => true | None => false end.

(** Decimal digits only. *)
Fixpoint numeral (s : string) : bool :=
  match s with
  | EmptyString => true
  | String c rest => is_digit c && numeral rest
  end.

(** Decimal digits and grouping commas only. *)
Fixpoint grouped (s : string) : bool :=
  match s with
  | EmptyString => true
  | String c rest => (is_digit c || Ascii.eqb c ",") && grouped rest
  end.

(** The digits of a text, in order. *)
Fixpoint digits_in (s : string) : list Z :=
  match s with
  | EmptyString => []
  | String c rest =>
      match digit_of c with
      | Some d => d :: digits_in rest
      | None => digits_in rest
      end
  end.

(** The character [c] occurs in [s]. *)
Fixpoint occurs (c : ascii) (s : string) : bool :=
  match s with
  | EmptyString => false
  | String a rest => Ascii.eqb c a || occurs c rest
  end.

(** A text after which the reading of a number stops: it is empty or
    begins with a character that is no digit, point or exponent mark,
    and it holds no comma. *)
Definition inert (tail : string) : Prop :=
  take_digits tail = ([], tail)
  /\ exponent_part tail = 0%Z
  /\ remove_commas tail = tail
  /\ occurs "." tail = false.

(** The text of a fractional part: nothing, or a point and digits. *)
Definition fraction (frac : string) : string :=
  match frac with
  | EmptyString => EmptyString
  | _ => "." +:+ frac
  end.

(** The number that the digits [whole], a point and the digits [frac]
    denote. *)
Definition reading (whole frac : string) : Q :=
  inject_Z (decimal (digits_in whole ++ digits_in frac))
  / inject_Z (10 ^ Z.of_nat (String.length frac)).

(** The dataset that a request to [/api/followers] brings: its body
    is JSON whose [data] property is an array. *)
Definition payload (request : Followers.Request) : option (list jsval) :=
  match request with
  | Followers.Json body =>
      match get body "data" with
      | Some (JArr items) => Some items
      | _ => None
      end
  | Followers.NotJson => None
  end.

(** A body on which the read of [body.data] does not fault. *)
Definition readable (request : Followers.Request) : bool :=
  match request with
  | Followers.NotJson
  | Followers.Json JNull
  | Followers.Json JUndef => false
  | Followers.Json _ => true
  end.

(** [scrapedCryptoData] after the POST requests of [history], oldest
    first. *)
Definition replay (history : list Followers.Request) (stored : list jsval)
    : list jsval :=
  fold_left (fun stored request => fst (Followers.POST request stored))
            history stored.

(** The dataset of the latest request of [history] that brings one. *)
Definition latest (history : list Followers.Request) : option (list jsval) :=
  fold_left (fun found request =>
               match payload request with
               | Some items => Some items
               | None => found
               end)
            history None.

(** The last character of a text. *)
Fixpoint last_char (s : string) : option ascii :=
  match s with
  | EmptyString => None
  | String c EmptyString => Some c
  | String _ rest => last_char rest
  end.

(** The profile pages that a trace visits, in order. *)
Definition visits (events : list Event) : list string :=
  omap (fun e => match e with Resolve url => Some url | Sleep _ => None end)
       events.

(** The profile pages of the coins that have a handle and a URL. *)
Definition profiles (cryptoData : list Coin) : list string :=
  omap (fun coin =>
          if (present (twitter_url coin) && present (twitter_handle coin))%bool
          then twitter_url coin else None)
       cryptoData.

(** The world after one more reading of the clock. *)
Definition later (w : World) : World :=
  mkWorld (entropy w) (drawn w) (calendar w) (S (dated w)) (trace w).

(** The ranks of merged records, and the ranks of listing records as
    they appear in merged records. *)
Definition ranks (records : list jsval) : list (option jsval) :=
  map (fun merged => get merged "rank") records.

Definition listed (coins : list Coin) : list (option jsval) :=
  map (fun coin => Some (JNum (inject_Z (rank coin)))) coins.

Definition one_to_ten : list (option jsval) :=
  map (fun z => Some (JNum (inject_Z z))) [1; 2; 3; 4; 5; 6; 7; 8; 9; 10]%Z.

(** What a pending task of the dashboard carries: ten listing records
    ranked 1 to 10 and some profile page, or merged records ranked 1
    to 10. *)
Definition sound (t : Task) : Prop :=
  match t with
  | TwitterTimer result =>
      listed (ScrapeCoinGecko.coinData result) = one_to_ten
      /\ ScrapeCoinGecko.twitterUrls result <> []
  | TwitterRequest body =>
      exists coins urls,
        body = ScrapeTwitter.Readable (Some coins) (JArr (map JStr urls))
        /\ listed coins = one_to_ten /\ urls <> []
  | StoreRequest body =>
      exists items,
        body = JObj [("data", JArr items)] /\ ranks items = one_to_ten
  | _ => True
  end.

(** The stored snapshot is empty or ranked 1 to 10, and so is what
    the pending tasks will bring. *)
Definition well_ranked (s : System) : Prop :=
  (scrapedCryptoData s = [] \/ ranks (scrapedCryptoData s) = one_to_ten)
  /\ Forall sound (pending s).

(** The tasks that stand between a click and the release of the
    button: the listing request and the timer of five seconds. *)
Definition holds (t : Task) : bool :=
  match t with
  | CoinGeckoRequest | ResetTimer => true
  | _ => false
  end.

Definition held (tasks : list Task) : nat :=
  length (List.filter holds tasks).

(** The dashboard shows a run: [scrapingStep] is "coingecko" or
    "twitter". *)
Definition showing_run (s : System) : Prop :=
  scrapingStep (page s) = coingecko \/ scrapingStep (page s) = twitter.

(** At most one task holds the button, the button is disabled while
    one does, and while the dashboard shows a run. *)
Definition gated (s : System) : Prop :=
  (held (pending s) <= 1)%nat
  /\ (held (pending s) = 1%nat -> scraping (page s) = true)
  /\ (showing_run s -> scraping (page s) = true).

(** A world for the examples: every random fraction is [n / d], the
    clock always shows [noon], nothing has happened yet. *)
Definition noon : string := "2024-03-06T12:00:00.000Z".

Definition example_world (n : N) (d : positive) : World :=
  mkWorld (fun _ => (n, d)) 0 (fun _ => noon) 0 [].

(** The body [{ data: items }]. *)
Definition commit (items : list jsval) : Followers.Request :=
  Followers.Json (JObj [("data", JArr items)]).

End Shape.

(** ** More of the dashboard: search, ordering and coverage *)

Module Cards.
Import Dashboard.

(** [c.toLowerCase()] for a code unit under 256: the letters A to Z,
    and the letters from U+00C0 to U+00DE but the sign U+00D7. *)
Definition lower (c : ascii) : ascii :=
  let n := N_of_ascii c in
  if ((65 <=? n) && (n <=? 90)
      || (192 <=? n) && (n <=? 222) && negb (n =? 215))%N
  then ascii_of_N (n + 32) else c.

(** [s.toLowerCase()] *)
Fixpoint toLowerCase (s : string) : string :=
  match s with
  | EmptyString => EmptyString
  | String c rest => String (lower c) (toLowerCase rest)
  end.

(** [coin.field?.toLowerCase().includes(searchTerm.toLowerCase())]:
    [undefined], so falsy, on a field that is [null] or [undefined];
    [None] is the TypeError of a field that is no string, or of a
    [coin] that is [null] or [undefined]. *)
Definition field_includes (coin : jsval) (field searchTerm : string)
    : option bool :=
  value ← get coin field;
  match value with
  | JUndef | JNull => Some false
  | JStr text => Some (includes (toLowerCase searchTerm) (toLowerCase text))
  | _ => None
  end.

(** The predicate of the [filter] in [filteredAndSortedData]; the
    fields after the first one that matches are not read. *)
Definition matches (searchTerm : string) (coin : jsval) : option bool :=
  match field_includes coin "coin_name" searchTerm with
  | None => None
  | Some true => Some true
  | Some false =>
      match field_includes coin "symbol" searchTerm with
      | None => None
      | Some true => Some true
      | Some false => field_includes coin "twitter_handle" searchTerm
      end
  end.

(** [cryptoData.filter(predicate)]; a fault in the predicate ends it. *)
Fixpoint filter_by (predicate : jsval -> option bool) (cryptoData : list jsval)
    : option (list jsval) :=
  match cryptoData with
  | [] => Some []
  | coin :: rest =>
      match predicate coin with
      | None => None
      | Some keep =>
          kept ← filter_by predicate rest;
          Some (if keep then coin :: kept else kept)
      end
  end.

(** [a - b] *)
Definition sub (a b : number) : number :=
  match a, b with
  | NaN, _ | _, NaN => NaN
  | Fin x, Fin y => double (x - y)
  | Infinity s, Fin _ => Infinity s
  | Fin _, Infinity s => Infinity (negb s)
  | Infinity s, Infinity t => if Bool.eqb s t then NaN else Infinity s
  end.

(** [parseFollowers(coin.followers)] on a field of any kind: a falsy
    value gives 0, a text is parsed, and any other value has no
    [replace] method, which is a TypeError. *)
Definition followersKey (coin : jsval) : option number :=
  followers ← get coin "followers";
  match followers with
  | JStr text => Some (parseFollowers text)
  | JArr _ | JObj _ | JNative _ => None
  | _ => if truthy followers then None else Some (of_Z 0)
  end.

(** The comparator of the "followers" ordering:
    [parseFollowers(b.followers) - parseFollowers(a.followers)]. *)
Definition byFollowers (a b : jsval) : option number :=
  key_b ← followersKey b;
  key_a ← followersKey a;
  Some (sub key_b key_a).

(** [Math.round(x)]: the nearest integer, the larger one on a tie. *)
Definition Math_round (x : Q) : Z := Qfloor (x + (1 # 2)).

(** [total > 0 ? Math.round((part / total) * 100) : 0], the percentage
    under the counters "With Twitter" and "Follower Data", on the exact
    quotient: what the page shows where the quotient and the product
    are doubles as they stand, as they are for a total of 1. *)
Definition percent (part total : nat) : Z :=
  if (0 <? total)%nat
  then Math_round (inject_Z (Z.of_nat part) / inject_Z (Z.of_nat total) * 100)
  else 0%Z.

(** [a / b] *)
Definition div (a b : number) : number :=
  match a, b with
  | NaN, _ | _, NaN => NaN
  | Fin x, Fin y =>
      if Qzero y then (if Qzero x then NaN else Infinity (Qneg x))
      else double (x / y)
  | Infinity s, Fin y => Infinity (xorb s (Qneg y))
  | Fin _, Infinity _ => of_Z 0
  | Infinity _, Infinity _ => NaN
  end.

(** [Math.round(x)] on any number. *)
Definition rounded (x : number) : number :=
  match x with
  | Fin q => of_Z (Math_round q)
  | _ => x
  end.

(** [total > 0 ? Math.round((part / total) * 100) : 0] as the page
    computes it for any two counts: the quotient and the product are
    rounded to doubles. *)
Definition figure (part total : nat) : number :=
  if (0 <? total)%nat
  then rounded (mul (div (of_Z (Z.of_nat part)) (of_Z (Z.of_nat total)))
                    (of_Z 100))
  else of_Z 0.

(** [cryptoData.filter(predicate).length] *)
Definition count_by (predicate : jsval -> option bool)
    (cryptoData : list jsval) : option nat :=
  kept ← filter_by predicate cryptoData;
  Some (length kept).

Definition totalCoins (cryptoData : list jsval) : nat := length cryptoData.

Definition coinsWithTwitter (cryptoData : list jsval) : option nat :=
  count_by withTwitter cryptoData.

Definition coinsWithFollowers (cryptoData : list jsval) : option nat :=
  count_by withFollowers cryptoData.

End Cards.

(** ** The route [/api/scraper] *)

Module Scraper.

(** What the spawned script does, as the listeners of the handler see
    it, in order: a chunk on its standard output or on its standard
    error, the event [close] with the exit code ([None] is [null], the
    script was killed by a signal), the event [error] with a message.
    A script that cannot be started gives [error] and then [close].
    The handler is modelled from the call of [spawn] on: a fault in
    [spawn] itself is left out. *)
Inductive Signal :=
| Stdout (chunk : string)
| Stderr (chunk : string)
| Close (code : option Z)
| Error (message : string).

(** The JSON answers and their status. *)
Inductive Answer :=
| Completed (output timestamp : string)
| ScraperFailed (error : string) (code : option Z) (timestamp : string)
| NotStarted (error timestamp : string).

Definition success (answer : Answer) : bool :=
  match answer with Completed _ _ => true | _ => false end.

Definition status (answer : Answer) : nat :=
  match answer with Completed _ _ => 200%nat | _ => 500%nat end.

(** The variables [output] and [errorOutput] and the promise that the
    handler returns. *)
Record Handler := mkHandler {
  output : string;
  errorOutput : string;
  resolved : option Answer
}.

(** [resolve(answer)]: only the first call settles the promise. *)
Definition resolve (answer : Answer) (h : Handler) : Handler :=
  match resolved h with
  | Some _ => h
  | None => mkHandler (output h) (errorOutput h) (Some answer)
  end.

(** The four listeners.  Those of [close] and [error] build their
    answer, reading the clock, before they call [resolve]. *)
Definition listen (s : Signal) (h : Handler) : M Handler :=
  match s with
  | Stdout chunk =>
      mret (mkHandler (output h +:+ chunk) (errorOutput h) (resolved h))
  | Stderr chunk =>
      mret (mkHandler (output h) (errorOutput h +:+ chunk) (resolved h))
  | Close code =>
      stamp ← now;
      mret (resolve (match code with
                     | Some 0%Z => Completed (output h) stamp
                     | _ => ScraperFailed (errorOutput h) code stamp
                     end) h)
  | Error message =>
      stamp ← now;
      mret (resolve (NotStarted message stamp) h)
  end.

Fixpoint listeners (script : list Signal) (h : Handler) : M Handler :=
  match script with
  | [] => mret h
  | s :: rest => h' ← listen s h; listeners rest h'
  end.

(** The answer of the route, [None] while the promise is not settled. *)
Definition POST (script : list Signal) : M (option Answer) :=
  h ← listeners script (mkHandler EmptyString EmptyString None);
  mret (resolved h).

End Scraper.

(** ** The component [ScraperControl] *)

Module ScraperControl.

Inductive Status := idle | running | success | error.

Record Control := mkControl {
  isRunning : bool;
  lastRun : option string;
  status : Status;
  output : string;
  in_flight : nat
}.

(** How the request of [runScraper] ends: [fetch] and [response.json()]
    give the answer of the route, at the time [at]; or one of them
    rejects with an [Error] that has the message [message]. *)
Inductive Outcome :=
| Replied (answer : Scraper.Answer) (at_time : string)
| Rejected (message : string).

Inductive Action :=
| Click
| Settle (outcome : Outcome).

Definition mounted : Control := mkControl false None idle EmptyString 0.

(** The line feed character. *)
Definition newline : string := String "010" EmptyString.

(** [text || fallback] on strings *)
Definition or_text (text fallback : string) : string :=
  if truthy_string text then text else fallback.

(** [runScraper] up to its [await]; the button is disabled while
    [isRunning] is set. *)
Definition runScraper (c : Control) : Control :=
  if isRunning c then c
  else mkControl true (lastRun c) running ("Starting scraper..." +:+ newline)
                 (S (in_flight c)).

(** The rest of [runScraper], [finally] included. *)
Definition settled (o : Outcome) (c : Control) : Control :=
  match in_flight c with
  | O => c
  | S others =>
      match o with
      | Replied (Scraper.Completed text _) at_time =>
          mkControl false (Some at_time) success
                    (or_text text "Scraper completed successfully") others
      | Replied (Scraper.ScraperFailed text _ _) _
      | Replied (Scraper.NotStarted text _) _ =>
          mkControl false (lastRun c) error (or_text text "Scraper failed")
                    others
      | Rejected message =>
          mkControl false (lastRun c) error ("Error: " +:+ message) others
      end
  end.

Definition react (a : Action) (c : Control) : Control :=
  match a with
  | Click => runScraper c
  | Settle o => settled o c
  end.

Inductive reachable : Control -> Prop :=
| reachable_mounted : reachable mounted
| reachable_react a c : reachable c -> reachable (react a c).

End ScraperControl.

(** ** More vocabulary *)

Module Measure.
Import Listing Dashboard.

(** The milliseconds that a trace waits. *)
Definition waited (events : list Event) : Z :=
  fold_right (fun e total =>
                match e with
                | Sleep ms => (Z.of_nat ms + total)%Z
                | Resolve _ => total
                end)
             0%Z events.

(** The coin has a handle and a URL. *)
Definition both (coin : Coin) : bool :=
  (present (twitter_url coin) && present (twitter_handle coin))%bool.

(** The coin has a handle and a URL, and the table has nothing for
    the URL. *)
Definition missing (coin : Coin) : bool :=
  (both coin
   && negb (truthy (index ScrapeTwitter.actualTwitterFollowers
                      (default EmptyString (twitter_url coin)))))%bool.

(** The URL of the coin is no property name of [Object.prototype]. *)
Definition plain (coin : Coin) : bool :=
  negb (existsb (String.eqb (default EmptyString (twitter_url coin)))
                object_prototype_names).

(** The records of an answer as they arrive: after [JSON.stringify]
    and [JSON.parse]. *)
Definition wire (items : list jsval) : list jsval :=
  items_of (json (JArr items)).

(** The entry of the listing table has a handle. *)
Definition handled (entry : ScrapeCoinGecko.Entry) : bool :=
  present (ScrapeCoinGecko.twitter_handle entry).

(** The followers of merged records. *)
Definition followers_of (records : list jsval) : list (option jsval) :=
  map (fun merged => get merged "followers") records.

(** The counts that the table holds for the ten listed coins, in the
    order of the listing. *)
Definition listed_counts : list (option jsval) :=
  map (fun text => Some (JStr text))
      [ "5.2M"; "3.1M"; "1.8M"; "2.4M"; "1.9M";
        "3.5M"; "2.8M"; "1.2M"; "890K"; "1.1M" ].

(** The followers that the table gives for a coin, and "No Twitter"
    for a coin without handle or URL. *)
Definition table_count (coin : Coin) : option jsval :=
  Some (if both coin
        then index ScrapeTwitter.actualTwitterFollowers
               (default EmptyString (twitter_url coin))
        else JStr "No Twitter").

(** What a pending task carries when no count will be made up: listing
    records whose pages are all in the table, with the counts of the
    ten listed coins. *)
Definition found_in_table (coins : list Coin) : Prop :=
  List.filter missing coins = [] /\ map table_count coins = listed_counts.

Definition calm (t : Task) : Prop :=
  match t with
  | TwitterTimer result =>
      found_in_table (ScrapeCoinGecko.coinData result)
      /\ ScrapeCoinGecko.twitterUrls result <> []
  | TwitterRequest body =>
      exists coins urls,
        body = ScrapeTwitter.Readable (Some coins) (JArr (map JStr urls))
        /\ found_in_table coins /\ urls <> []
  | StoreRequest body =>
      exists items,
        body = JObj [("data", JArr items)]
        /\ followers_of items = listed_counts
  | _ => True
  end.

(** No random number has been drawn since the count was [d], the
    stored snapshot is empty or holds the counts of the table, and the
    pending tasks are calm. *)
Definition genuine (d : nat) (s : System) : Prop :=
  drawn (world s) = d
  /\ (scrapedCryptoData s = []
      \/ followers_of (scrapedCryptoData s) = listed_counts)
  /\ Forall calm (pending s).

(** The event settles the promise of the scraper route. *)
Definition settles (s : Scraper.Signal) : bool :=
  match s with
  | Scraper.Close _ | Scraper.Error _ => true
  | _ => false
  end.

(** What a script writes to its standard output, and to its standard
    error. *)
Fixpoint written (script : list Scraper.Signal) : string :=
  match script with
  | [] => EmptyString
  | Scraper.Stdout chunk :: rest => chunk +:+ written rest
  | _ :: rest => written rest
  end.

Fixpoint complained (script : list Scraper.Signal) : string :=
  match script with
  | [] => EmptyString
  | Scraper.Stderr chunk :: rest => chunk +:+ complained rest
  | _ :: rest => complained rest
  end.

(** A read of [/api/followers] is pending. *)
Definition reading_followers (t : Task) : bool :=
  match t with FollowersRequest _ => true | _ => false end.

(** While the page shows that it is loading, a read is pending. *)
Definition loading_has_cause (s : System) : Prop :=
  loading (page s) = true -> existsb reading_followers (pending s) = true.

End Measure.

Import Shape.
Import Listing Dashboard.

(** * Properties *)

(** ** Numbers *)

Lemma Qred_inject_Z (z : Z) : Qred (inject_Z z) = inject_Z z.
Proof.
  apply Qred_identity. simpl. apply Z.gcd_1_r.
Qed.

Lemma Qpower_ten (k : nat) :
  Qpower 10 (Z.of_nat k) == inject_Z (10 ^ Z.of_nat k).
Proof.
  rewrite Zpower_Qpower by lia. reflexivity.
Qed.

Lemma shifted (m : Z) (k : nat) :
  inject_Z m * Qpower 10 (0 - Z.of_nat k)
  == inject_Z m / inject_Z (10 ^ Z.of_nat k).
Proof.
  replace (0 - Z.of_nat k)%Z with (- Z.of_nat k)%Z by lia.
  rewrite Qpower_opp, Qpower_ten. reflexivity.
Qed.

(** ** Rounding to doubles *)

(** Comparisons of integers seen as rationals. *)
Ltac integers :=
  try unfold Qlt; try unfold Qle; cbn [Qnum Qden inject_Z];
  rewrite ?Z.mul_1_r.

Section Rounding.
Local Open Scope Q_scope.

Lemma double_comp (p q : Q) : p == q -> double p = double q.
Proof.
  intros H. unfold double. now rewrite (Qred_complete p q H).
Qed.

Lemma pow2_pos (e : Z) : 0 < pow2 e.
Proof. now apply Qpower_0_lt. Qed.

Lemma pow2_Z (e : Z) : (0 <= e)%Z -> pow2 e == inject_Z (2 ^ e).
Proof. intros He. unfold pow2. now rewrite Zpower_Qpower. Qed.

(** Dividing by a power of two with a negative exponent multiplies by
    an integer. *)
Lemma scaled (q : Q) (e : Z) :
  (e <= 0)%Z -> q / pow2 e == q * inject_Z (2 ^ (- e)).
Proof.
  intros He. unfold Qdiv, pow2.
  rewrite <- Qpower_opp, Zpower_Qpower by lia. reflexivity.
Qed.

Lemma unscaled (n : Z) (e : Z) :
  (e <= 0)%Z -> inject_Z (n * 2 ^ (- e)) * pow2 e == inject_Z n.
Proof.
  intros He. rewrite inject_Z_mult, <- Qmult_assoc.
  rewrite <- (pow2_Z (- e)) by lia. unfold pow2.
  rewrite <- Qpower_plus by discriminate.
  replace (- e + e)%Z with 0%Z by lia. apply Qmult_1_r.
Qed.

Lemma ilog2_low (q : Q) : 0 < q -> pow2 (ilog2 q) <= q.
Proof.
  intros Hq. unfold ilog2.
  set (k := (Z.log2 (Qnum q) - Z.log2 (Z.pos (Qden q)))%Z).
  destruct (Qle_bool (pow2 k) q) eqn:Htest; [now apply Qle_bool_iff|].
  clear Htest. destruct q as [n d]. cbn [Qnum Qden] in *.
  assert (Hn: (0 < n)%Z) by (unfold Qlt in Hq; simpl in Hq; lia).
  destruct (Z.log2_spec n Hn) as [Hlow _].
  destruct (Z.log2_spec (Z.pos d) ltac:(lia)) as [_ Hhigh].
  pose proof (Z.log2_nonneg n) as H0. pose proof (Z.log2_nonneg (Z.pos d)) as H1.
  replace (k - 1)%Z with (Z.log2 n - Z.succ (Z.log2 (Z.pos d)))%Z
    by (unfold k; lia).
  unfold pow2. rewrite Qpower_minus by discriminate.
  change (2 ^ Z.log2 n) with (pow2 (Z.log2 n)).
  change (2 ^ Z.succ (Z.log2 (Z.pos d)))
    with (pow2 (Z.succ (Z.log2 (Z.pos d)))).
  rewrite !pow2_Z by lia.
  set (a := (2 ^ Z.log2 n)%Z) in *.
  set (b := (2 ^ Z.succ (Z.log2 (Z.pos d)))%Z) in *.
  apply Qle_shift_div_r; [integers; lia|].
  rewrite (Qmake_Qdiv n d). unfold Qdiv.
  rewrite <- Qmult_assoc, (Qmult_comm (/ _)), Qmult_assoc.
  apply Qle_shift_div_l; [integers; lia|].
  rewrite <- !inject_Z_mult. integers. nia.
Qed.

Lemma ilog2_Z (z : Z) : (0 < z)%Z -> ilog2 (inject_Z z) = Z.log2 z.
Proof.
  intros Hz. unfold ilog2. cbn [Qnum Qden inject_Z].
  change (Z.log2 1) with 0%Z. rewrite Z.sub_0_r.
  assert (Htest: Qle_bool (pow2 (Z.log2 z)) (inject_Z z) = true).
  { apply Qle_bool_iff. rewrite pow2_Z by apply Z.log2_nonneg.
    integers. now apply Z.log2_spec. }
  fold (inject_Z z). now rewrite Htest.
Qed.


Lemma exponent_small (q : Q) (z : Z) :
  0 < q -> q <= inject_Z z -> (z < 2 ^ 53)%Z -> (exponent q <= 0)%Z.
Proof.
  intros Hq Hz Hbig. unfold exponent.
  assert (ilog2 q < 53)%Z; [|lia].
  apply (Qpower_lt_compat_l_inv 2); [|reflexivity].
  apply (Qle_lt_trans _ q); [now apply ilog2_low|].
  apply (Qle_lt_trans _ (inject_Z z)); [exact Hz|].
  change (inject_Z z < pow2 53).
  rewrite (pow2_Z 53) by lia. integers. exact Hbig.
Qed.

Lemma nearest_even_comp (p q : Q) : p == q -> nearest_even p = nearest_even q.
Proof.
  intros H. unfold nearest_even. rewrite (Qfloor_comp p q H).
  assert (Hc: (p - inject_Z (Qfloor q) ?= 1 # 2)
              = (q - inject_Z (Qfloor q) ?= 1 # 2)).
  { apply Qcompare_comp; [|reflexivity].
    apply Qplus_comp; [exact H | reflexivity]. }
  now rewrite Hc.
Qed.

Lemma nearest_even_Z (n : Z) : nearest_even (inject_Z n) = n.
Proof.
  unfold nearest_even. rewrite Qfloor_Z.
  assert (H: inject_Z n - inject_Z n == 0) by ring.
  destruct (Qcompare_spec (inject_Z n - inject_Z n) (1 # 2)) as [He|_|Hg];
    [|reflexivity|].
  - rewrite H in He. discriminate.
  - rewrite H in Hg. discriminate.
Qed.

Lemma nearest_even_low (q : Q) : 0 <= q -> (0 <= nearest_even q)%Z.
Proof.
  intros Hq. unfold nearest_even.
  assert (0 <= Qfloor q)%Z
    by (change 0%Z with (Qfloor 0); now apply Qfloor_resp_le).
  destruct (_ ?= _); [destruct (Z.even _)| |]; lia.
Qed.

Lemma nearest_even_high (q : Q) (n : Z) :
  q <= inject_Z n -> (nearest_even q <= n)%Z.
Proof.
  intros Hq. unfold nearest_even.
  pose proof (Qfloor_resp_le _ _ Hq) as Hfloor. rewrite Qfloor_Z in Hfloor.
  assert (Hup: 0 < q - inject_Z (Qfloor q) -> (Qfloor q < n)%Z).
  { intros Hpos. destruct (Z.eq_dec (Qfloor q) n) as [Heq|Hne]; [|lia].
    exfalso. rewrite Heq in Hpos. apply (Qlt_irrefl q).
    apply (Qle_lt_trans _ (inject_Z n)); [exact Hq|].
    apply (Qplus_lt_l _ _ (- inject_Z n)).
    rewrite Qplus_opp_r. exact Hpos. }
  destruct (Qcompare_spec (q - inject_Z (Qfloor q)) (1 # 2)) as [He|_|Hg].
  - assert (Qfloor q < n)%Z by (apply Hup; now rewrite He).
    destruct (Z.even _); lia.
  - exact Hfloor.
  - assert (Qfloor q < n)%Z; [|lia].
    apply Hup. now apply (Qlt_trans _ (1 # 2)).
Qed.

(** Rounding does not step over an integer under 2^53. *)
Lemma round_bounds (q : Q) (z : Z) :
  0 < q -> q <= inject_Z z -> (z < 2 ^ 53)%Z ->
  exists x, round q = Fin x /\ 0 <= x /\ x <= inject_Z z.
Proof.
  intros Hq Hz Hbig.
  pose proof (exponent_small q z Hq Hz Hbig) as He.
  unfold round. set (e := exponent q) in *.
  set (m := nearest_even (q / pow2 e)).
  assert (Hlow: (0 <= m)%Z).
  { apply nearest_even_low. apply Qle_shift_div_l; [apply pow2_pos|].
    rewrite Qmult_0_l. now apply Qlt_le_weak. }
  assert (Hhigh: (m <= z * 2 ^ (- e))%Z).
  { apply nearest_even_high. rewrite scaled, inject_Z_mult by exact He.
    apply Qmult_le_compat_r; [exact Hz|].
    integers. apply Z.pow_nonneg. lia. }
  assert (Hx: 0 <= inject_Z m * pow2 e /\ inject_Z m * pow2 e <= inject_Z z).
  { split.
    - apply Qmult_le_0_compat; [integers; exact Hlow|].
      apply Qlt_le_weak, pow2_pos.
    - rewrite <- (unscaled z e He).
      apply Qmult_le_compat_r; [integers; exact Hhigh|].
      apply Qlt_le_weak, pow2_pos. }
  destruct Hx as [Hx0 Hxz].
  destruct (Qle_bool (pow2 1024) _) eqn:Hover.
  - exfalso. apply Qle_bool_iff in Hover. rewrite Qred_correct in Hover.
    assert (Hlt: inject_Z z < pow2 1024).
    { rewrite (pow2_Z 1024) by lia. integers.
      eapply Z.lt_le_trans; [exact Hbig|].
      apply Z.pow_le_mono_r; lia. }
    apply (Qlt_irrefl (pow2 1024)).
    eapply Qle_lt_trans; [exact Hover|].
    eapply Qle_lt_trans; [exact Hxz | exact Hlt].
  - eexists. split; [reflexivity|]. now rewrite Qred_correct.
Qed.

Lemma double_bounds (q : Q) (z : Z) :
  0 <= q -> q <= inject_Z z -> (z < 2 ^ 53)%Z ->
  exists x, double q = Fin x /\ 0 <= x /\ x <= inject_Z z.
Proof.
  intros Hq Hz Hbig. unfold double.
  pose proof (Qred_correct q) as Hred.
  destruct (Qred q ?= 0) eqn:Hsign.
  - exists 0. split; [reflexivity|]. split; [apply Qle_refl|].
    eapply Qle_trans; [exact Hq | exact Hz].
  - apply Qlt_alt in Hsign. rewrite Hred in Hsign.
    exfalso. now apply (Qlt_irrefl 0), (Qle_lt_trans _ q).
  - apply Qgt_alt in Hsign.
    apply round_bounds; [exact Hsign | now rewrite Hred | exact Hbig].
Qed.

(** An integer under 2^53 is a double. *)
Lemma double_Z (z : Z) :
  (0 <= z < 2 ^ 53)%Z -> double (inject_Z z) = Fin (inject_Z z).
Proof.
  intros [Hlow Hbig]. unfold double. rewrite Qred_inject_Z.
  destruct (Z.eq_dec z 0%Z) as [->|Hne]; [reflexivity|].
  assert (Hpos: (0 < z)%Z) by lia.
  assert (Hq: 0 < inject_Z z) by (integers; exact Hpos).
  apply Qgt_alt in Hq as Hsign. rewrite Hsign.
  pose proof (exponent_small (inject_Z z) z Hq (Qle_refl _) Hbig) as He.
  unfold round. set (e := exponent (inject_Z z)) in *.
  assert (Hm: nearest_even (inject_Z z / pow2 e) = (z * 2 ^ (- e))%Z).
  { rewrite <- nearest_even_Z. apply nearest_even_comp.
    now rewrite scaled, inject_Z_mult. }
  rewrite Hm.
  assert (Hx: Qred (inject_Z (z * 2 ^ (- e)) * pow2 e) = inject_Z z).
  { rewrite <- (Qred_inject_Z z). apply Qred_complete. now apply unscaled. }
  rewrite Hx.
  assert (Hover: Qle_bool (pow2 1024) (inject_Z z) = false).
  { destruct (Qle_bool _ _) eqn:H; [|reflexivity].
    apply Qle_bool_iff in H. rewrite (pow2_Z 1024) in H by lia.
    rewrite <- (Zle_Qle (2 ^ 1024) z) in H.
    assert (2 ^ 53 <= 2 ^ 1024)%Z by (apply Z.pow_le_mono_r; lia). lia. }
  now rewrite Hover.
Qed.

End Rounding.

(** ** Characters and digit strings *)

Ltac each_char c :=
  destruct c as [[] [] [] [] [] [] [] []]; try discriminate; try reflexivity.

Lemma parseFloat_unsigned (c : ascii) (r : string) :
  is_digit c = true ->
  parseFloat (String c r) =
    let '(ip, r1) := take_digits (String c r) in
    let '(fp, r2) :=
      match r1 with
      | String "." r' => take_digits r'
      | _ => ([], r1)
      end in
    match ip ++ fp with
    | [] => NaN
    | ds =>
        double (inject_Z (decimal ds)
                * Qpower 10 (exponent_part r2 - Z.of_nat (length fp)))
    end.
Proof.
  intros Hc. each_char c.
Qed.

Lemma digit_is_digit (c : ascii) :
  is_digit c = true -> exists d, digit_of c = Some d.
Proof.
  unfold is_digit. destruct (digit_of c) as [d|]; [eauto | discriminate].
Qed.

Lemma digit_no_comma (c : ascii) : is_digit c = true -> Ascii.eqb c "," = false.
Proof. intros Hc. each_char c. Qed.

Lemma take_digits_numeral (s tail : string) :
  numeral s = true ->
  take_digits tail = ([], tail) ->
  take_digits (s +:+ tail) = (digits_in s, tail).
Proof.
  intros Hs Htail. induction s as [|c s IH]; simpl in *.
  - exact Htail.
  - apply andb_prop in Hs as [Hc Hs].
    destruct (digit_is_digit c Hc) as [d Hd]. rewrite Hd.
    now rewrite (IH Hs).
Qed.

Lemma digits_in_length (s : string) :
  numeral s = true -> length (digits_in s) = String.length s.
Proof.
  induction s as [|c s IH]; simpl; [reflexivity|].
  intros H. apply andb_prop in H as [Hc Hs].
  destruct (digit_is_digit c Hc) as [d Hd]. rewrite Hd. simpl.
  now rewrite (IH Hs).
Qed.

Lemma remove_commas_app (a b : string) :
  remove_commas (a +:+ b) = remove_commas a +:+ remove_commas b.
Proof.
  induction a as [|c a IH]; simpl; [reflexivity|].
  rewrite IH. now destruct (Ascii.eqb c ",").
Qed.

Lemma remove_commas_numeral (s : string) :
  numeral s = true -> remove_commas s = s.
Proof.
  induction s as [|c s IH]; simpl; [reflexivity|].
  intros H. apply andb_prop in H as [Hc Hs].
  now rewrite (digit_no_comma c Hc), (IH Hs).
Qed.

Lemma remove_commas_grouped (s : string) :
  grouped s = true ->
  numeral (remove_commas s) = true
  /\ digits_in (remove_commas s) = digits_in s.
Proof.
  induction s as [|c s IH]; simpl; [now split|].
  intros H. apply andb_prop in H as [Hc Hs].
  destruct (IH Hs) as [Hn Hd].
  destruct (Ascii.eqb c ",") eqn:Hcomma.
  - apply Ascii.eqb_eq in Hcomma. subst c. now split.
  - rewrite orb_false_r in Hc. simpl. rewrite Hc, Hn.
    destruct (digit_of c); now rewrite Hd.
Qed.

Lemma numeral_head (s : string) :
  numeral s = true -> digits_in s <> [] ->
  exists c rest, s = String c rest /\ is_digit c = true.
Proof.
  destruct s as [|c s]; simpl; [congruence|].
  intros H _. apply andb_prop in H as [Hc _]. eauto.
Qed.

Lemma fraction_commas (frac : string) :
  numeral frac = true -> remove_commas (fraction frac) = fraction frac.
Proof.
  intros H. destruct frac as [|c frac]; [reflexivity|].
  unfold fraction.
  change (remove_commas ("." +:+ String c frac))
    with (String "." (remove_commas (String c frac))).
  now rewrite (remove_commas_numeral _ H).
Qed.

(** What [parseFloat] reads in a count text followed by an inert tail. *)
Lemma parseFloat_reading (whole frac tail : string) :
  grouped whole = true ->
  digits_in whole <> [] ->
  numeral frac = true ->
  inert tail ->
  parseFloat (remove_commas (whole +:+ fraction frac +:+ tail))
  = double (reading whole frac).
Proof.
  intros Hw Hne Hf (Htake & Hexp & Hcommas & Hpoint).
  rewrite !remove_commas_app, Hcommas, (fraction_commas _ Hf).
  destruct (remove_commas_grouped _ Hw) as [Hn Hd].
  rewrite <- Hd in Hne.
  destruct (numeral_head _ Hn Hne) as (c & rest & Heq & Hc).
  unfold reading. rewrite <- Hd. clear Hd Hw.
  set (digits := remove_commas whole) in *.
  assert (Hstart: exists r, digits +:+ fraction frac +:+ tail = String c r)
    by (rewrite Heq; simpl; eauto).
  destruct Hstart as [r Hr]. rewrite Hr, (parseFloat_unsigned c r Hc), <- Hr.
  clear Hr r Heq Hc c rest.
  destruct frac as [|f frac].
  - (* no fractional part *)
    simpl fraction. change (EmptyString +:+ tail) with tail.
    rewrite (take_digits_numeral digits tail Hn Htake).
    assert (Hfp: match tail with
                 | String "." r' => take_digits r'
                 | _ => ([], tail)
                 end = ([], tail)).
    { destruct tail as [|a tail]; [reflexivity|].
      simpl in Hpoint. apply orb_false_elim in Hpoint as [Ha _].
      each_char a. }
    rewrite Hfp, Hexp, !app_nil_r. simpl length.
    destruct (digits_in digits) as [|d ds] eqn:Hds; [congruence|].
    rewrite <- Hds. apply double_comp, shifted.
  - (* a point and digits *)
    unfold fraction.
    change ("." +:+ String f frac) with (String "." (String f frac)).
    assert (Hdot: take_digits (String "." (String f frac) +:+ tail)
                  = ([], String "." (String f frac) +:+ tail)) by reflexivity.
    rewrite (take_digits_numeral digits _ Hn Hdot).
    change (String "." (String f frac) +:+ tail)
      with (String "." (String f frac +:+ tail)).
    cbv iota beta.
    rewrite (take_digits_numeral (String f frac) tail Hf Htake), Hexp.
    rewrite (digits_in_length _ Hf).
    destruct (digits_in digits ++ digits_in (String f frac)) as [|d ds] eqn:Hds.
    { apply app_eq_nil in Hds as [Hds _]. congruence. }
    rewrite <- Hds. apply double_comp, shifted.
Qed.

Lemma append_cons (c : ascii) (a b : string) :
  String c a +:+ b = String c (a +:+ b).
Proof. reflexivity. Qed.

Lemma append_empty_r (s : string) : s +:+ EmptyString = s.
Proof.
  induction s as [|c s IH]; [reflexivity|]. now rewrite append_cons, IH.
Qed.

Lemma append_assoc (a b c : string) : (a +:+ b) +:+ c = a +:+ b +:+ c.
Proof.
  induction a as [|x a IH]; [reflexivity|]. now rewrite !append_cons, IH.
Qed.

Lemma append_empty (a b : string) : a +:+ b = EmptyString -> a = EmptyString /\ b = EmptyString.
Proof. destruct a; [now split | discriminate]. Qed.

Lemma includes_char (c : ascii) (s : string) :
  includes (String c EmptyString) s = occurs c s.
Proof.
  induction s as [|a s IH]; [reflexivity|].
  cbn [includes occurs String.prefix].
  destruct (ascii_dec c a) as [->|Hne].
  - rewrite Ascii.eqb_refl. now destruct s.
  - apply Ascii.eqb_neq in Hne. now rewrite Hne, IH.
Qed.

Lemma occurs_app (c : ascii) (a b : string) :
  occurs c (a +:+ b) = (occurs c a || occurs c b)%bool.
Proof.
  induction a as [|x a IH]; [reflexivity|].
  rewrite append_cons. simpl. now rewrite IH, orb_assoc.
Qed.

Lemma occurs_grouped (c : ascii) (s : string) :
  grouped s = true -> is_digit c = false -> Ascii.eqb c "," = false ->
  occurs c s = false.
Proof.
  intros Hs Hc Hcomma. induction s as [|a s IH]; simpl in *; [reflexivity|].
  apply andb_prop in Hs as [Ha Hs]. rewrite (IH Hs), orb_false_r.
  destruct (Ascii.eqb c a) eqn:Heq; [|reflexivity].
  apply Ascii.eqb_eq in Heq. subst a.
  rewrite Hc in Ha. simpl in Ha. congruence.
Qed.

Lemma grouped_numeral (s : string) : numeral s = true -> grouped s = true.
Proof.
  induction s as [|a s IH]; simpl; [reflexivity|].
  intros H. apply andb_prop in H as [Ha Hs]. now rewrite Ha, (IH Hs).
Qed.

Lemma occurs_fraction (c : ascii) (frac : string) :
  numeral frac = true -> is_digit c = false ->
  Ascii.eqb c "," = false -> Ascii.eqb c "." = false ->
  occurs c (fraction frac) = false.
Proof.
  intros Hf Hc Hcomma Hpoint. destruct frac as [|f frac]; [reflexivity|].
  unfold fraction. rewrite occurs_app. simpl occurs at 1.
  rewrite Hpoint. simpl.
  apply (occurs_grouped c (String f frac)); auto using grouped_numeral.
Qed.

(** [parseFollowers] on a count text followed by an inert tail: the
    reading of the text, scaled as the letters of the tail say. *)
Lemma parseFollowers_text (whole frac tail : string) :
  grouped whole = true ->
  digits_in whole <> [] ->
  numeral frac = true ->
  inert tail ->
  parseFollowers (whole +:+ fraction frac +:+ tail) =
    let num := double (reading whole frac) in
    if (occurs "M" tail || occurs "m" tail)%bool then mul num (of_Z 1000000)
    else if (occurs "K" tail || occurs "k" tail)%bool then mul num (of_Z 1000)
    else num.
Proof.
  intros Hw Hne Hf Htail. unfold parseFollowers.
  rewrite (parseFloat_reading whole frac tail Hw Hne Hf Htail).
  assert (Hletter: forall c : ascii,
             is_digit c = false -> Ascii.eqb c "," = false ->
             Ascii.eqb c "." = false ->
             includes (String c EmptyString) (whole +:+ fraction frac +:+ tail)
             = occurs c tail).
  { intros c H1 H2 H3.
    now rewrite includes_char, !occurs_app, (occurs_grouped c whole),
      (occurs_fraction c frac). }
  rewrite !Hletter by reflexivity. clear Hletter.
  destruct whole as [|c whole]; [simpl in Hne; congruence|].
  cbn [append truthy_string negb orb].
  destruct (String.eqb _ "0") eqn:Hzero; [|reflexivity].
  apply String.eqb_eq in Hzero. injection Hzero as -> Hrest.
  apply append_empty in Hrest as [-> Hrest].
  apply append_empty in Hrest as [Hfrac ->].
  destruct frac; [reflexivity | discriminate].
Qed.

(** C1, the claim as stated, fails on the suffix B: ["2B"] is read as 2,
    not as 2,000,000,000. *)
Lemma parseFollowers_ignores_B :
  parseFollowers "2B" = of_Z 2
  /\ parseFollowers "2B" <> mul (of_Z 2) (of_Z 1000000000).
Proof.
  split; vm_compute; [reflexivity | discriminate].
Qed.

(** C1, amended: a count text is digits, possibly grouped by commas,
    and possibly a point and more digits.  [parseFollowers] maps it to
    the double nearest to the number it denotes, and with a suffix K or
    M, in either case, to the product in doubles of that double and
    1,000 or 1,000,000.  For a text that denotes an integer the result
    is that integer, or that integer times 1,000 or 1,000,000, as long
    as it is under 2^53; for other texts the product is rounded, and
    differs from the scaled number where the rounding says so ("4.1M"
    gives 4,099,999.9999999995).  A suffix B is not recognised: the
    number before it is returned as it is.  In particular "1.2M" gives
    1,200,000, "850K" gives 850,000 and "12,345" gives 12,345. *)
Theorem parseFollowers_scales (whole frac : string) :
  grouped whole = true ->
  digits_in whole <> [] ->
  numeral frac = true ->
  let text := whole +:+ fraction frac in
  let value := reading whole frac in
  parseFollowers text = double value
  /\ parseFollowers (text +:+ "K") = mul (double value) (of_Z 1000)
  /\ parseFollowers (text +:+ "k") = mul (double value) (of_Z 1000)
  /\ parseFollowers (text +:+ "M") = mul (double value) (of_Z 1000000)
  /\ parseFollowers (text +:+ "m") = mul (double value) (of_Z 1000000)
  /\ parseFollowers (text +:+ "B") = double value
  /\ parseFollowers (text +:+ "b") = double value
  /\ (forall n : Z,
         (0 <= n)%Z -> (value == inject_Z n)%Q ->
         ((n < 2 ^ 53)%Z -> parseFollowers text = of_Z n)
         /\ ((n * 1000 < 2 ^ 53)%Z ->
             parseFollowers (text +:+ "K") = of_Z (n * 1000)
             /\ parseFollowers (text +:+ "k") = of_Z (n * 1000))
         /\ ((n * 1000000 < 2 ^ 53)%Z ->
             parseFollowers (text +:+ "M") = of_Z (n * 1000000)
             /\ parseFollowers (text +:+ "m") = of_Z (n * 1000000)))
  /\ parseFollowers "1.2M" = of_Z 1200000
  /\ parseFollowers "850K" = of_Z 850000
  /\ parseFollowers "12,345" = of_Z 12345
  /\ parseFollowers "4.1M" = Fin (8804682956799999 # 2147483648)
  /\ parseFollowers "9007199254740993" = of_Z 9007199254740992.
Proof.
  intros Hw Hne Hf text value.
  assert (Hread: forall tail, inert tail ->
             parseFollowers (text +:+ tail) =
               let num := double value in
               if (occurs "M" tail || occurs "m" tail)%bool
               then mul num (of_Z 1000000)
               else if (occurs "K" tail || occurs "k" tail)%bool
               then mul num (of_Z 1000)
               else num).
  { intros tail Htail. unfold text. rewrite append_assoc.
    now apply parseFollowers_text. }
  assert (Hplain: parseFollowers text = double value).
  { rewrite <- (append_empty_r text). now rewrite Hread by (repeat split). }
  assert (HK: parseFollowers (text +:+ "K") = mul (double value) (of_Z 1000))
    by now rewrite Hread by (repeat split).
  assert (Hk: parseFollowers (text +:+ "k") = mul (double value) (of_Z 1000))
    by now rewrite Hread by (repeat split).
  assert (HM: parseFollowers (text +:+ "M")
              = mul (double value) (of_Z 1000000))
    by now rewrite Hread by (repeat split).
  assert (Hm: parseFollowers (text +:+ "m")
              = mul (double value) (of_Z 1000000))
    by now rewrite Hread by (repeat split).
  assert (Hscale: forall n k : Z,
             (0 <= n)%Z -> (0 < k)%Z -> (value == inject_Z n)%Q ->
             (n * k < 2 ^ 53)%Z ->
             mul (double value) (of_Z k) = of_Z (n * k)).
  { intros n k Hn Hk0 Hvalue Hbound.
    rewrite (double_comp _ _ Hvalue), double_Z by nia.
    unfold mul, of_Z.
    rewrite (double_comp _ (inject_Z (n * k))) by (now rewrite inject_Z_mult).
    apply double_Z. nia. }
  split; [exact Hplain|]. split; [exact HK|]. split; [exact Hk|].
  split; [exact HM|]. split; [exact Hm|].
  split; [now rewrite Hread by (repeat split)|].
  split; [now rewrite Hread by (repeat split)|].
  split.
  { intros n Hn Hvalue. split; [|split].
    - intros Hbound. rewrite Hplain, (double_comp _ _ Hvalue).
      apply double_Z. lia.
    - intros Hbound. rewrite HK, Hk.
      now rewrite (Hscale n 1000%Z Hn ltac:(lia) Hvalue Hbound).
    - intros Hbound. rewrite HM, Hm.
      now rewrite (Hscale n 1000000%Z Hn ltac:(lia) Hvalue Hbound). }
  repeat split; vm_compute; reflexivity.
Qed.

Lemma parseFollowers_scales_witness :
  parseFollowers "12,345" = of_Z 12345
  /\ parseFollowers "3.5k" = of_Z 3500
  /\ parseFollowers "1,024.75M" = of_Z 1024750000
  /\ parseFollowers "7b" = of_Z 7.
Proof.
  destruct (parseFollowers_scales "12,345" EmptyString eq_refl ltac:(discriminate) eq_refl)
    as (H1 & _).
  destruct (parseFollowers_scales "3" "5" eq_refl ltac:(discriminate) eq_refl)
    as (_ & _ & H2 & _).
  destruct (parseFollowers_scales "1,024" "75" eq_refl ltac:(discriminate) eq_refl)
    as (_ & _ & _ & H3 & _).
  destruct (parseFollowers_scales "7" EmptyString eq_refl ltac:(discriminate) eq_refl)
    as (_ & _ & _ & _ & _ & _ & H4 & _).
  exact (conj H1 (conj H2 (conj H3 H4))).
Defined.

(** ** The route [/api/followers] *)

Lemma POST_stored (request : Followers.Request) (stored : list jsval) :
  fst (Followers.POST request stored)
  = match payload request with Some items => items | None => stored end.
Proof.
  destruct request as [|body]; [reflexivity|].
  unfold Followers.POST, payload.
  destruct (get body "data") as [[]|]; simpl;
    rewrite ?andb_false_r; reflexivity.
Qed.

Lemma replay_latest (history : list Followers.Request)
    (found : option (list jsval)) :
  replay history (default [] found)
  = default []
      (fold_left (fun found request =>
                    match payload request with
                    | Some items => Some items
                    | None => found
                    end) history found).
Proof.
  revert found. induction history as [|request history IH]; intros found.
  - reflexivity.
  - simpl. rewrite POST_stored.
    destruct (payload request) as [items|].
    + apply (IH (Some items)).
    + apply IH.
Qed.

(** C5, the claim as stated, fails after a commit of the empty array:
    a dataset has been committed, and [GET] returns the sample data
    instead of that dataset. *)
Lemma GET_forgets_empty_commit :
  let loaded := fun _ : nat => noon in
  let history := [commit []] in
  latest history = Some []
  /\ Followers.GET loaded (replay history Followers.initial)
     = Followers.sampleData loaded
  /\ Followers.GET loaded (replay history Followers.initial) <> [].
Proof.
  repeat split. discriminate.
Qed.

(** C5, amended: [GET] returns the sample data if no dataset has been
    committed or the dataset committed last is empty, and otherwise the
    dataset committed last, unchanged. *)
Theorem GET_latest_or_sample (loaded : nat -> string)
    (history : list Followers.Request) :
  Followers.GET loaded (replay history Followers.initial)
  = match latest history with
    | Some (record :: records) => record :: records
    | Some [] | None => Followers.sampleData loaded
    end.
Proof.
  unfold latest. change Followers.initial with (default ([] : list jsval) None).
  rewrite replay_latest.
  destruct (fold_left _ history None) as [[|record records]|]; reflexivity.
Qed.

(** C7: a POST replaces the stored snapshot exactly when its body is
    JSON whose [data] is an array, and then answers with the length of
    that array; any other request leaves the snapshot as it was, and
    answers with its length, or with the error of status 500 when the
    body cannot be read. *)
Theorem POST_replaces_iff_array (request : Followers.Request)
    (stored : list jsval) :
  match payload request with
  | Some items =>
      Followers.POST request stored = (items, Ok (length items))
  | None =>
      Followers.POST request stored
      = (stored, if readable request then Ok (length stored) else ServerError)
  end.
Proof.
  destruct request as [|body]; [reflexivity|].
  unfold Followers.POST, payload, readable in *.
  destruct body; try reflexivity;
    (destruct (get _ "data") as [[]|] eqn:Hdata; try discriminate;
     simpl in *; rewrite ?andb_false_r; reflexivity).
Qed.

(** C10: the commit of an empty array succeeds with count 0, and after
    it [GET] returns the sample data again, whatever was stored before:
    [GET] looks only at whether the stored array is empty. *)
Theorem empty_commit_restores_sample (loaded : nat -> string)
    (history : list Followers.Request) (stored : list jsval) :
  Followers.POST (commit []) stored = ([], Ok 0)
  /\ Followers.GET loaded (replay (history ++ [commit []]) Followers.initial)
     = Followers.sampleData loaded
  /\ Followers.GET loaded stored
     = match stored with
       | [] => Followers.sampleData loaded
       | _ :: _ => stored
       end.
Proof.
  split; [reflexivity|]. split.
  - unfold replay. rewrite fold_left_app. reflexivity.
  - now destruct stored.
Qed.

(** ** The route [/api/scrape-twitter] *)

Import ScrapeTwitter.

Ltac monad :=
  unfold mbind, mret, M_bind, M_ret, sleep, emit, now, random in *;
  cbn beta iota zeta delta [fst snd entropy drawn calendar dated trace] in *.

(** A coin without handle is pushed as it is, with the marker: no wait,
    no visit, no random number; the clock is read once. *)
Lemma step_no_handle (coin : Coin) (w : World) :
  present (twitter_handle coin) = false ->
  step coin w
  = (record coin JNull JNull (JStr "No Twitter") (calendar w (dated w)),
     later w).
Proof.
  intros H. unfold step. rewrite H, andb_false_r. reflexivity.
Qed.

Lemma visits_sleep (events : list Event) (ms : nat) :
  visits (events ++ [Sleep ms]) = visits events.
Proof. unfold visits. rewrite omap_app. simpl. apply app_nil_r. Qed.

Lemma visits_resolve (events : list Event) (url : string) :
  visits (events ++ [Resolve url]) = visits events ++ [url].
Proof. unfold visits. now rewrite omap_app. Qed.

Lemma resolve_trace (coin : Coin) (url : string) (w : World) :
  visits (trace (snd (resolve coin url w))) = visits (trace w) ++ [url].
Proof.
  unfold resolve, fallback. monad.
  destruct (truthy _); monad; [|destruct (entropy w (drawn w))]; simpl;
    now rewrite visits_resolve, !visits_sleep.
Qed.

Lemma step_trace (coin : Coin) (w : World) :
  visits (trace (snd (step coin w)))
  = visits (trace w) ++ profiles [coin].
Proof.
  unfold step, profiles. simpl omap.
  destruct (present (twitter_url coin) && present (twitter_handle coin))%bool
    eqn:Hboth.
  - apply andb_prop in Hboth as [Hurl _].
    destruct (twitter_url coin) as [url|]; [|discriminate]. simpl default.
    pose proof (resolve_trace coin url w) as Hres. monad.
    destruct (resolve coin url w) as [followers w']. simpl in *.
    now rewrite visits_sleep, Hres.
  - monad. now rewrite app_nil_r.
Qed.

Lemma loop_pushes (cryptoData : list Coin) (scrapedData : list jsval)
    (w : World) :
  loop cryptoData scrapedData w
  = (scrapedData ++ fst (loop cryptoData [] w), snd (loop cryptoData [] w)).
Proof.
  revert scrapedData w.
  induction cryptoData as [|coin rest IH]; intros scrapedData w.
  - monad. simpl. monad. now rewrite app_nil_r.
  - simpl. monad. destruct (step coin w) as [pushed w'].
    rewrite (IH (scrapedData ++ [pushed])), (IH ([] ++ [pushed])).
    simpl. now rewrite <- app_assoc.
Qed.

Lemma loop_length (cryptoData : list Coin) (w : World) :
  length (fst (loop cryptoData [] w)) = length cryptoData.
Proof.
  revert w. induction cryptoData as [|coin rest IH]; intros w.
  - reflexivity.
  - simpl. monad. destruct (step coin w) as [pushed w'].
    rewrite loop_pushes. simpl. now rewrite IH.
Qed.


Lemma loop_trace (cryptoData : list Coin) (w : World) :
  visits (trace (snd (loop cryptoData [] w)))
  = visits (trace w) ++ profiles cryptoData.
Proof.
  revert w. induction cryptoData as [|coin rest IH]; intros w.
  - simpl. monad. now rewrite app_nil_r.
  - simpl. monad. pose proof (step_trace coin w) as Hstep.
    destruct (step coin w) as [pushed w']. rewrite loop_pushes. simpl in *.
    rewrite IH, Hstep. unfold profiles. simpl omap.
    destruct (if (present _ && present _)%bool then _ else None);
      simpl; now rewrite <- ?app_assoc, ?app_nil_r.
Qed.




(** C9: when the body has no [twitterUrls], or an empty array, the
    [cryptoData] of the body is not looked at: the default data are
    processed, and the answer is a success with the two records of
    Bitcoin and Ethereum. *)
Theorem empty_twitterUrls_default_data (cryptoData : option (list Coin))
    (twitterUrls : jsval) (w : World) :
  twitterUrls = JUndef \/ twitterUrls = JArr [] ->
  POST (Readable cryptoData twitterUrls) w
  = processCryptoData defaultCryptoData w
  /\ fst (POST (Readable cryptoData twitterUrls) w)
     = Ok (mkScraped 2
             [ JObj [ ("coin_name", JStr "Bitcoin");
                      ("symbol", JStr "BTC");
                      ("twitter_handle", JStr "bitcoin");
                      ("twitter_url", JStr "https://x.com/bitcoin");
                      ("followers", JStr "5.2M");
                      ("market_cap", JNum (inject_Z 1280000000000));
                      ("price", JNum (6543221 # 100));
                      ("rank", JNum 1);
                      ("last_updated", JStr (calendar w (dated w))) ];
               JObj [ ("coin_name", JStr "Ethereum");
                      ("symbol", JStr "ETH");
                      ("twitter_handle", JStr "ethereum");
                      ("twitter_url", JStr "https://x.com/ethereum");
                      ("followers", JStr "3.1M");
                      ("market_cap", JNum (inject_Z 425000000000));
                      ("price", JNum (354218 # 100));
                      ("rank", JNum 2);
                      ("last_updated", JStr (calendar w (S (dated w)))) ] ]
             (calendar w (S (S (dated w))))).
Proof.
  intros [-> | ->]; split; reflexivity.
Qed.

Lemma empty_twitterUrls_default_data_witness :
  let stray := mkCoin 7 "Stray" "STR" None None 0 0 None in
  let w := example_world 0 1 in
  POST (Readable (Some [stray]) (JArr [])) w
  = processCryptoData defaultCryptoData w.
Proof.
  intros stray w.
  exact (proj1 (empty_twitterUrls_default_data (Some [stray]) (JArr []) w
                  (or_intror eq_refl))).
Defined.

Lemma last_char_append (s : string) (c : ascii) :
  last_char (s +:+ String c EmptyString) = Some c.
Proof.
  induction s as [|a s IH]; [reflexivity|].
  rewrite append_cons. simpl. rewrite IH.
  now destruct (s +:+ String c EmptyString) eqn:Hs; [destruct s; discriminate|].
Qed.

(** A made-up count is counted as follower data by the dashboard. *)
Lemma made_up_counts (digits unit : string) :
  unit = "M" \/ unit = "K" ->
  (truthy_string (digits +:+ unit)
   && negb (String.eqb (digits +:+ unit) "0")
   && negb (String.eqb (digits +:+ unit) "No Twitter"))%bool = true.
Proof.
  intros Hunit.
  assert (Hlast: last_char (digits +:+ unit) = Some "M"%char
                 \/ last_char (digits +:+ unit) = Some "K"%char)
    by (destruct Hunit as [-> | ->]; rewrite last_char_append; auto).
  destruct (String.eqb_spec (digits +:+ unit) "0") as [Heq|_];
    [rewrite Heq in Hlast; destruct Hlast; discriminate|].
  destruct (String.eqb_spec (digits +:+ unit) "No Twitter") as [Heq|_];
    [rewrite Heq in Hlast; destruct Hlast; discriminate|].
  destruct (digits +:+ unit); [destruct Hlast; discriminate | reflexivity].
Qed.

Lemma gt_tiers (q : Q) :
  gt q (inject_Z 100000000000) = true -> gt q (inject_Z 50000000000) = true.
Proof.
  unfold gt. intros H.
  destruct (Qle_bool q (inject_Z 50000000000)) eqn:Hle; [|reflexivity].
  apply Qle_bool_iff in Hle.
  assert (Hle': (q <= inject_Z 100000000000)%Q).
  { eapply Qle_trans; [exact Hle|]. discriminate. }
  apply Qle_bool_iff in Hle'. now rewrite Hle' in H.
Qed.

(** The fallback makes up a text that ends in M above fifty billion of
    market capitalisation and in K below, and draws one random number. *)
Lemma fallback_text (coin : Coin) (w : World) :
  exists digits,
    fallback coin w
    = (JStr (digits +:+
             (if gt (or_zero (market_cap coin)) (inject_Z 50000000000)
              then "M" else "K")),
       mkWorld (entropy w) (S (drawn w)) (calendar w) (dated w) (trace w)).
Proof.
  unfold fallback. monad. destruct (entropy w (drawn w)) as [n d].
  destruct (gt _ (inject_Z 100000000000)) eqn:H100.
  - rewrite (gt_tiers _ H100). eauto.
  - destruct (gt _ (inject_Z 50000000000)); [eauto|].
    destruct (gt _ (inject_Z 10000000000)); eauto.
Qed.




(** The followers that a visit gives are a text that is not empty, or a
    built-in inherited by the table. *)
Lemma resolve_followers (coin : Coin) (url : string) (w : World) :
  match fst (resolve coin url w) with
  | JStr text => truthy_string text = true
  | JNative _ => True
  | _ => False
  end.
Proof.
  unfold resolve. monad.
  destruct (truthy (index actualTwitterFollowers url)) eqn:Hfound.
  - simpl. unfold index, inherited in *.
    destruct (actualTwitterFollowers !! url) as [text|]; [exact Hfound|].
    now destruct (existsb _ _).
  - match goal with
    | |- context [fallback coin ?w1] =>
        destruct (fallback_text coin w1) as [digits Hfall]; rewrite Hfall
    end.
    simpl.
    pose proof (made_up_counts digits
                  (if gt (or_zero (market_cap coin)) (inject_Z 50000000000)
                   then "M" else "K")) as Hcount.
    destruct (truthy_string _); [reflexivity|].
    apply Hcount. destruct (gt _ _); auto.
Qed.

(** C8, the claim as stated, fails on its own scenario: record A with
    handle "alpha", whose visit gives "2.5M", and record B without
    handle.  The followers of A are the text "2.5M" and not the number
    2,500,000; the followers of B are the text "No Twitter" and not
    [null]. *)
Lemma merged_followers_are_not_numbers :
  let a := mkCoin 1 "Alpha" "ALP" (Some "alpha") (Some "https://x.com/alpha")
             (inject_Z 200000000000) 1 None in
  let b := mkCoin 2 "Beta" "BET" None None (inject_Z 1000000) 1 None in
  let w := example_world 1 6 in
  let answer :=
    fst (POST (Readable (Some [a; b]) (JArr [JStr "https://x.com/alpha"])) w) in
  fst (resolve a "https://x.com/alpha" w) = JStr "2.5M"
  /\ answer
     = Ok (mkScraped 2
             [ record a (JStr "alpha") (JStr "https://x.com/alpha")
                 (JStr "2.5M") noon;
               record b JNull JNull (JStr "No Twitter") noon ]
             noon)
  /\ JStr "2.5M" <> JNum (inject_Z 2500000)
  /\ JStr "No Twitter" <> JNull.
Proof.
  repeat split; discriminate.
Qed.

(** C8, amended: a merged record carries its followers as a text, never
    as a number and never as [null]: the displayed count for a record
    with handle (or, when the URL names a member of [Object.prototype],
    that built-in), and "No Twitter" for a record without.  So do the
    records of the sample data.  In the scenario the merged output is
    [{rank: 1, handle: "alpha", followers: "2.5M"}, {rank: 2, handle:
    null, followers: "No Twitter"}]; the dashboard reads "2.5M" as
    2,500,000 and "No Twitter" as NaN. *)
Theorem merged_followers_are_text (a b : Coin) (w : World) :
  twitter_handle a = Some "alpha" ->
  twitter_url a = Some "https://x.com/alpha" ->
  twitter_handle b = None ->
  fst (resolve a "https://x.com/alpha" w) = JStr "2.5M" ->
  (exists stamp_a stamp_b stamp : string,
      fst (POST (Readable (Some [a; b]) (JArr [JStr "https://x.com/alpha"])) w)
      = Ok (mkScraped 2
              [ record a (JStr "alpha") (JStr "https://x.com/alpha")
                  (JStr "2.5M") stamp_a;
                record b JNull JNull (JStr "No Twitter") stamp_b ]
              stamp))
  /\ parseFollowers "2.5M" = of_Z 2500000
  /\ parseFollowers "No Twitter" = NaN
  /\ (forall (coin : Coin) (w' : World),
         exists followers,
           get (fst (step coin w')) "followers" = Some followers
           /\ match followers with
              | JStr text => truthy_string text = true
              | JNative _ => True
              | _ => False
              end)
  /\ (forall loaded : nat -> string,
         Forall (fun served =>
                   exists text, get served "followers" = Some (JStr text)
                                /\ truthy_string text = true)
                (Followers.sampleData loaded)).
Proof.
  intros Ha Hurl Hb Hres. split; [|split; [reflexivity|split; [reflexivity|split]]].
  - unfold POST, processCryptoData. simpl get. cbn [is_zero Qzero default from_option].
    simpl. monad. unfold id.
    unfold step at 1. rewrite Ha, Hurl. cbn [present truthy_string andb default from_option id].
    monad. unfold id.
    destruct (resolve a "https://x.com/alpha" w) as [followers w1].
    simpl in Hres. subst followers. monad.
    rewrite step_no_handle by (now rewrite Hb). monad. simpl.
    eexists _, _, _. reflexivity.
  - intros coin w'. unfold step.
    destruct (present (twitter_url coin) && present (twitter_handle coin))%bool.
    + monad.
      pose proof (resolve_followers coin (default EmptyString (twitter_url coin)) w')
        as Hfol.
      destruct (resolve coin _ w') as [followers w1]. simpl in *.
      exists followers. split; [reflexivity | exact Hfol].
    + monad. simpl. exists (JStr "No Twitter"). split; reflexivity.
  - intros loaded. unfold Followers.sampleData.
    repeat constructor; eexists; split; reflexivity.
Qed.

Lemma merged_followers_are_text_witness :
  let a := mkCoin 1 "Alpha" "ALP" (Some "alpha") (Some "https://x.com/alpha")
             (inject_Z 200000000000) 1 None in
  let b := mkCoin 2 "Beta" "BET" None None (inject_Z 1000000) 1 None in
  let w := example_world 1 6 in
  exists stamp_a stamp_b stamp : string,
    fst (POST (Readable (Some [a; b]) (JArr [JStr "https://x.com/alpha"])) w)
    = Ok (mkScraped 2
            [ record a (JStr "alpha") (JStr "https://x.com/alpha")
                (JStr "2.5M") stamp_a;
              record b JNull JNull (JStr "No Twitter") stamp_b ]
            stamp).
Proof.
  intros a b w.
  exact (proj1 (merged_followers_are_text a b w
                  eq_refl eq_refl eq_refl eq_refl)).
Defined.

(** ** Ranks through the merge *)

(** The object pushed for a coin is the record of that coin. *)
Lemma step_record (coin : Coin) (w : World) :
  exists (handle url : option string) (followers : jsval) (stamp : string),
    fst (step coin w)
    = record coin (string_or_null handle) (string_or_null url) followers stamp.
Proof.
  unfold step.
  destruct (present (twitter_url coin) && present (twitter_handle coin))%bool.
  - monad. destruct (resolve coin _ w) as [followers w1].
    now exists (twitter_handle coin), (twitter_url coin), followers,
      (calendar w1 (dated w1)).
  - monad. now exists None, None, (JStr "No Twitter"), (calendar w (dated w)).
Qed.

Lemma record_rank (coin : Coin) (handle url : option string)
    (followers : jsval) (stamp : string) :
  let merged := record coin (string_or_null handle) (string_or_null url)
                  followers stamp in
  get merged "rank" = Some (JNum (inject_Z (rank coin)))
  /\ unprintable merged = false
  /\ get (json merged) "rank" = Some (JNum (inject_Z (rank coin))).
Proof.
  destruct handle, url; repeat split; simpl;
    destruct (unprintable followers); reflexivity.
Qed.

Lemma loop_ranks (cryptoData : list Coin) (w : World) :
  ranks (fst (loop cryptoData [] w)) = listed cryptoData
  /\ ranks (map (fun x => if unprintable x then JNull else json x)
                (fst (loop cryptoData [] w)))
     = listed cryptoData.
Proof.
  revert w. induction cryptoData as [|coin rest IH]; intros w.
  - now split.
  - simpl. monad.
    destruct (step_record coin w) as (handle & url & followers & stamp & Hrec).
    destruct (step coin w) as [pushed w']. simpl in Hrec. subst pushed.
    rewrite loop_pushes. simpl fst. destruct (IH w') as [IH1 IH2].
    destruct (record_rank coin handle url followers stamp) as (H1 & H2 & H3).
    unfold ranks, listed in *. cbn [app map]. cbv zeta in H1, H2, H3.
    now rewrite H1, H2, H3, IH1, IH2.
Qed.

(** ** The dashboard and the routes together *)

Lemma coingecko_answer (w : World) :
  exists result w',
    ScrapeCoinGecko.POST w = (Ok result, w')
    /\ listed (ScrapeCoinGecko.coinData result) = one_to_ten
    /\ ScrapeCoinGecko.twitterUrls result <> []
    /\ ScrapeCoinGecko.totalCoins result = 10%nat.
Proof.
  destruct (ScrapeCoinGecko.POST w) as [reply w'] eqn:Hpost.
  vm_compute in Hpost. injection Hpost as <- <-.
  eexists _, _. split; [reflexivity|].
  split; [vm_compute; reflexivity|]. split; [discriminate | reflexivity].
Qed.

Lemma twitter_answer (coins : list Coin) (urls : list string) (w : World) :
  urls <> [] ->
  exists result w',
    POST (Readable (Some coins) (JArr (map JStr urls))) w = (Ok result, w')
    /\ scraped result = length coins
    /\ exists items,
         json (JObj [("data", JArr (data result))])
         = JObj [("data", JArr items)]
         /\ ranks items = listed coins.
Proof.
  intros Hurls. unfold POST. cbn [truthy get default from_option id].
  assert (Hlen: is_zero (JNum (inject_Z (Z.of_nat (length (map JStr urls)))))
                = false) by (destruct urls; [congruence | reflexivity]).
  change (String.eqb "length" "length") with true. cbv iota. rewrite Hlen.
  unfold processCryptoData. monad. unfold id.
  pose proof (loop_ranks coins w) as [_ Hranks].
  pose proof (loop_length coins w) as Hlength.
  destruct (loop coins [] w) as [scrapedData w1]. simpl in *.
  eexists _, _. split; [reflexivity|]. split; [exact Hlength|].
  eexists. split; [reflexivity | exact Hranks].
Qed.


Ltac sys :=
  cbn beta iota zeta delta
    [continue finally spawn update fetchData fetched
     scrapedCryptoData pending page world] in *.

Lemma sound_spawn (t : Task) (tasks : list Task) :
  sound t -> Forall sound tasks -> Forall sound (tasks ++ [t]).
Proof.
  intros Ht Htasks. rewrite Forall_app. split; [exact Htasks|].
  now repeat constructor.
Qed.

Lemma continue_well_ranked (loaded : nat -> string) (t : Task) (o : Outcome)
    (s : System) :
  sound t -> well_ranked s -> well_ranked (continue loaded t o s).
Proof.
  intros Ht [Hstore Htasks]. unfold well_ranked.
  destruct t as [|result|body|body|in_run|]; cbn [sound] in Ht.
  - (* the listing request *)
    destruct o; sys.
    + destruct (coingecko_answer (world s)) as (result & w' & -> & Hl & Hu & _).
      sys. split; [exact Hstore|].
      apply sound_spawn; [exact I|]. now apply sound_spawn.
    + split; [exact Hstore | now apply sound_spawn].
    + split; [exact Hstore | now apply sound_spawn].
  - (* the timer of three seconds *)
    destruct Ht as [Hl Hu].
    assert (Hbody: sound (TwitterRequest
                      (Readable (Some (ScrapeCoinGecko.coinData result))
                         (JArr (map JStr (ScrapeCoinGecko.twitterUrls result))))))
      by (cbn [sound]; eauto).
    destruct o; sys; (split; [exact Hstore | now apply sound_spawn]).
  - (* the resolution request *)
    destruct Ht as (coins & urls & -> & Hl & Hu).
    destruct o; sys.
    + destruct (twitter_answer coins urls (world s) Hu)
        as (result & w' & Hpost & _ & items & Hjson & Hranks).
      rewrite Hpost. sys.
      split; [exact Hstore|]. apply sound_spawn; [|exact Htasks].
      cbn [sound]. exists items. split; [exact Hjson | now rewrite Hranks].
    + split; [exact Hstore | exact Htasks].
    + split; [exact Hstore | exact Htasks].
  - (* the commit *)
    destruct Ht as (items & -> & Hranks).
    destruct o; sys.
    + change (Followers.POST (Followers.Json (JObj [("data", JArr items)]))
                (scrapedCryptoData s))
        with (items, Ok (length items) : Reply nat).
      sys. split; [now right | now apply sound_spawn].
    + split; [exact Hstore | now apply sound_spawn].
    + split; [exact Hstore | exact Htasks].
  - (* the read *)
    destruct o; sys; (split; [exact Hstore | exact Htasks]).
  - (* the timer of five seconds *)
    sys. split; [exact Hstore | exact Htasks].
Qed.

Lemma react_well_ranked (loaded : nat -> string) (a : Action) (s : System) :
  well_ranked s -> well_ranked (react loaded a s).
Proof.
  intros [Hstore Htasks]. destruct a as [| |i o]; cbn [react].
  - unfold runFullScraper. destruct (scraping (page s)); [now split|].
    split; [exact Hstore | now apply sound_spawn].
  - destruct (loading (page s)); [now split|].
    split; [exact Hstore | now apply sound_spawn].
  - destruct (pending s !! i) as [t|] eqn:Hi; [|now split].
    apply continue_well_ranked.
    + exact (Forall_lookup_1 _ _ _ _ Htasks Hi).
    + split; [exact Hstore|]. sys. now apply Forall_delete.
Qed.

Lemma reachable_well_ranked (loaded : nat -> string) (s : System) :
  reachable loaded s -> well_ranked s.
Proof.
  induction 1 as [w | a s _ IH].
  - split; [now left | now repeat constructor].
  - now apply react_well_ranked.
Qed.

Lemma run_reachable (loaded : nat -> string) (actions : list Action)
    (s : System) :
  reachable loaded s -> reachable loaded (run loaded actions s).
Proof.
  revert s. induction actions as [|a actions IH]; intros s Hs.
  - exact Hs.
  - apply (IH (react loaded a s)). now constructor.
Qed.

Lemma one_to_ten_NoDup : NoDup one_to_ten.
Proof.
  unfold one_to_ten. apply NoDup_fmap_2.
  - intros x y Heq. injection Heq. lia.
  - repeat (apply NoDup_cons; split;
            [rewrite ?elem_of_cons, elem_of_nil; intuition discriminate|]).
    apply NoDup_nil_2.
Qed.

(** C4: the ranks of a committed snapshot are those of the listing.
    The merge keeps the ranks of the listing records, one record per
    coin and in the order of the listing, whatever the listing is; the
    listing route always lists the ranks 1 to 10; and in every state
    that the dashboard and the routes can reach, the stored snapshot is
    still empty or its ranks are exactly 1 to 10, in this order and
    without duplicates. *)
Theorem committed_ranks_are_listed (loaded : nat -> string) (s : System)
    (cryptoData : list Coin) (w : World) :
  reachable loaded s ->
  (scrapedCryptoData s = []
   \/ (ranks (scrapedCryptoData s) = one_to_ten
       /\ NoDup (ranks (scrapedCryptoData s))))
  /\ (exists listing,
         fst (ScrapeCoinGecko.POST w) = Ok listing
         /\ listed (ScrapeCoinGecko.coinData listing) = one_to_ten)
  /\ (exists merged,
         fst (processCryptoData cryptoData w) = Ok merged
         /\ ranks (data merged) = listed cryptoData
         /\ length (data merged) = length cryptoData).
Proof.
  intros Hs. split; [|split].
  - destruct (reachable_well_ranked loaded s Hs) as [[Hempty | Hranks] _].
    + now left.
    + right. split; [exact Hranks|]. rewrite Hranks. apply one_to_ten_NoDup.
  - destruct (coingecko_answer w) as (listing & w' & -> & Hl & _).
    exists listing. split; [reflexivity | exact Hl].
  - pose proof (loop_ranks cryptoData w) as [Hranks _].
    pose proof (loop_length cryptoData w) as Hlength.
    unfold processCryptoData. monad.
    destruct (loop cryptoData [] w) as [scrapedData w1]. simpl in *.
    eexists. split; [reflexivity|]. split; [exact Hranks | exact Hlength].
Qed.

Lemma committed_ranks_are_listed_witness :
  let loaded := fun _ : nat => noon in
  let w := example_world 0 1 in
  let s := run loaded
             [ Settle 0 Answered; Click; Settle 0 Answered; Settle 0 Answered;
               Settle 1 Answered; Settle 1 Answered; Settle 1 Answered ]
             (mounted w) in
  ranks (scrapedCryptoData s) = one_to_ten
  /\ NoDup (ranks (scrapedCryptoData s)).
Proof.
  intros loaded w s.
  destruct (committed_ranks_are_listed loaded s [] w
              (run_reachable loaded _ _ (reachable_mounted loaded w)))
    as [[Hempty | Hranks] _].
  - vm_compute in Hempty. discriminate Hempty.
  - exact Hranks.
Defined.

(** ** The button *)

Lemma held_spawn (tasks : list Task) (t : Task) :
  held (tasks ++ [t]) = (held tasks + (if holds t then 1 else 0))%nat.
Proof.
  unfold held. rewrite List.filter_app, length_app. simpl.
  now destruct (holds t).
Qed.

Lemma held_delete (tasks : list Task) (i : nat) (t : Task) :
  tasks !! i = Some t ->
  held tasks = (held (delete i tasks) + (if holds t then 1 else 0))%nat.
Proof.
  revert i. induction tasks as [|first rest IH]; intros i Hi; [discriminate|].
  destruct i as [|i].
  - injection Hi as ->. unfold held. simpl. destruct (holds t); simpl; lia.
  - specialize (IH i Hi). unfold held in *. simpl.
    destruct (holds first); simpl; lia.
Qed.

Ltac page_fields :=
  cbn beta iota zeta delta
    [continue finally spawn update fetchData fetched
     scrapedCryptoData pending page world showing_run
     set_scraping set_status set_loading set_data
     cryptoData loading scraping scrapingStatus scrapingStep] in *.

Lemma continue_gated (loaded : nat -> string) (t : Task) (o : Outcome)
    (s : System) (i : nat) :
  pending s !! i = Some t ->
  gated s ->
  gated (continue loaded t o
           (mkSystem (page s) (scrapedCryptoData s) (world s)
                     (delete i (pending s)))).
Proof.
  intros Hi (Hmost & Hheld & Hshow).
  pose proof (held_delete _ _ _ Hi) as Hdel.
  unfold gated, showing_run in *.
  destruct t as [|result|body|body|in_run|]; cbn [holds] in Hdel.
  - (* the listing request: the timer of five seconds takes over *)
    assert (Hon: scraping (page s) = true) by (apply Hheld; lia).
    destruct o; page_fields;
      [destruct (ScrapeCoinGecko.POST (world s)) as [[result|] w']|..];
      page_fields; rewrite ?held_spawn; cbn [holds];
      (split; [lia | split; [intros _; exact Hon | intros _; exact Hon]]).
  - (* the timer of three seconds *)
    destruct o; page_fields; rewrite held_spawn; cbn [holds];
      (split; [lia | split; [intros H; apply Hheld; lia | exact Hshow]]).
  - (* the resolution request *)
    destruct o; page_fields;
      [destruct (POST body (world s)) as [[result|] w']|..];
      page_fields; rewrite ?held_spawn; cbn [holds];
      (split; [lia | split; [intros H; apply Hheld; lia |]]);
      try exact Hshow; intros [H | H]; discriminate H.
  - (* the commit *)
    destruct o; page_fields;
      [destruct (Followers.POST _ _) as [stored reply]|..];
      page_fields; rewrite ?held_spawn; cbn [holds];
      (split; [lia | split; [intros H; apply Hheld; lia | exact Hshow]]).
  - (* the read *)
    destruct o, in_run; page_fields;
      (split; [lia | split; [intros H; apply Hheld; lia | exact Hshow]]).
  - (* the timer of five seconds releases the button *)
    page_fields.
    split; [lia | split; [intros H; lia | intros [H | H]; discriminate H]].
Qed.

Lemma react_gated (loaded : nat -> string) (a : Action) (s : System) :
  gated s -> gated (react loaded a s).
Proof.
  intros Hs. destruct a as [| |i o]; cbn [react].
  - unfold runFullScraper.
    destruct (scraping (page s)) eqn:Hon; [exact Hs|].
    destruct Hs as (Hmost & Hheld & Hshow). unfold gated, showing_run in *.
    page_fields. rewrite held_spawn. cbn [holds].
    assert (held (pending s) = 0%nat).
    { destruct (held (pending s)) as [|[|n]]; [reflexivity| |lia].
      rewrite Hheld in Hon by reflexivity. discriminate Hon. }
    split; [lia | now split].
  - destruct (loading (page s)); [exact Hs|].
    destruct Hs as (Hmost & Hheld & Hshow). unfold gated, showing_run in *.
    page_fields. rewrite held_spawn. cbn [holds].
    split; [lia | split; [intros H; apply Hheld; lia | exact Hshow]].
  - destruct (pending s !! i) as [t|] eqn:Hi; [|exact Hs].
    now apply continue_gated.
Qed.

Lemma reachable_gated (loaded : nat -> string) (s : System) :
  reachable loaded s -> gated s.
Proof.
  induction 1 as [w | a s _ IH].
  - unfold gated, showing_run. simpl.
    split; [unfold held; simpl; lia|].
    split; [unfold held; simpl; lia | intros [H | H]; discriminate H].
  - now apply react_gated.
Qed.

(** C6, the claim as stated, fails.  A click starts a run; the listing
    route answers; the timer of three seconds fires and the resolution
    request goes out; the timer of five seconds fires while that request
    is still pending (its route waits 3.9 seconds for every coin).  Now
    a run is under way and the button is released: a second click is
    taken, it sets the step back to "coingecko", replaces the status and
    sends a second listing request next to the pending resolution
    request.  No route ever answers "busy". *)
Lemma second_click_during_resolution :
  let loaded := fun _ : nat => noon in
  let w := example_world 0 1 in
  let s := run loaded
             [ Settle 0 Answered; Click; Settle 0 Answered; Settle 0 Answered;
               Settle 0 Answered ]
             (mounted w) in
  let s' := react loaded Click s in
  active s = true
  /\ length (pending s) = 1%nat
  /\ scraping (page s) = false
  /\ scrapingStatus (page s) = StartingTwitter
  /\ scrapingStep (page s') = coingecko
  /\ scrapingStatus (page s') = StartingCoinGecko
  /\ pending s' = pending s ++ [CoinGeckoRequest]
  /\ s' <> s.
Proof.
  vm_compute. repeat split. discriminate.
Qed.

(** C6, amended: while the dashboard shows a run (the step is
    "coingecko" or "twitter") the button is disabled, in every state
    that can be reached: a click then changes nothing, neither the
    status nor the stored snapshot, and no request is sent or queued.
    There is no "busy" answer. *)
Theorem click_ignored_while_run_shown (loaded : nat -> string) (s : System) :
  reachable loaded s ->
  showing_run s ->
  scraping (page s) = true /\ react loaded Click s = s.
Proof.
  intros Hs Hshow.
  destruct (reachable_gated loaded s Hs) as (_ & _ & Hgate).
  specialize (Hgate Hshow). split; [exact Hgate|].
  cbn [react]. unfold runFullScraper. now rewrite Hgate.
Qed.

Lemma click_ignored_while_run_shown_witness :
  let loaded := fun _ : nat => noon in
  let w := example_world 0 1 in
  let s := run loaded [Settle 0 Answered; Click; Settle 0 Answered] (mounted w) in
  scrapingStep (page s) = twitter
  /\ scraping (page s) = true
  /\ react loaded Click s = s.
Proof.
  intros loaded w s. split; [reflexivity|].
  exact (click_ignored_while_run_shown loaded s
           (run_reachable loaded _ _ (reachable_mounted loaded w))
           (or_intror eq_refl)).
Defined.

(** * More properties *)

Import Cards Measure.

(** ** The route [/api/followers], continued *)

(** X1: [GET] never answers with an empty array: it gives the stored
    records when there are some, and the eight sample records when
    there are none. *)
Theorem GET_never_empty (loaded : nat -> string) (stored : list jsval) :
  Followers.GET loaded stored <> []
  /\ length (Followers.GET loaded stored)
     = match stored with [] => 8%nat | _ :: _ => length stored end.
Proof.
  destruct stored; split; (discriminate || reflexivity).
Qed.

(** X2: a body whose [data] is an array that is not empty is stored
    whole, whatever else the body holds and whatever was stored before;
    the answer counts it and the next [GET] returns it as it is. *)
Theorem POST_then_GET (loaded : nat -> string) (props : list (string * jsval))
    (items stored : list jsval) :
  own "data" props = Some (JArr items) ->
  items <> [] ->
  Followers.POST (Followers.Json (JObj props)) stored = (items, Ok (length items))
  /\ Followers.GET loaded
       (fst (Followers.POST (Followers.Json (JObj props)) stored))
     = items.
Proof.
  intros Hdata Hitems. unfold Followers.POST. cbn [get]. rewrite Hdata.
  cbn. split; [reflexivity|]. unfold Followers.GET.
  destruct items; [congruence | reflexivity].
Qed.

Lemma POST_then_GET_witness :
  let first := JObj [("rank", JNum 1)] in
  let second := JObj [("rank", JNum 2)] in
  Followers.GET (fun _ => noon)
    (fst (Followers.POST
            (Followers.Json
               (JObj [("source", JStr "batch"); ("data", JArr [first; second])]))
            [JObj [("rank", JNum 7)]]))
  = [first; second].
Proof.
  intros first second.
  exact (proj2 (POST_then_GET (fun _ => noon)
                  [("source", JStr "batch"); ("data", JArr [first; second])]
                  [first; second] [JObj [("rank", JNum 7)]]
                  eq_refl ltac:(discriminate))).
Defined.

(** X3: a request sent twice leaves the same snapshot and gets the same
    answer as the request sent once. *)
Theorem POST_twice (request : Followers.Request) (stored : list jsval) :
  Followers.POST request (fst (Followers.POST request stored))
  = Followers.POST request stored.
Proof.
  destruct request as [|body]; [reflexivity|].
  unfold Followers.POST.
  destruct (get body "data") as [[]|]; cbn; rewrite ?andb_false_r;
    reflexivity.
Qed.

(** ** The route [/api/scrape-twitter], continued *)

Lemma waited_app (events more : list Event) :
  waited (events ++ more) = (waited events + waited more)%Z.
Proof.
  induction events as [|e events IH].
  - change (waited []) with 0%Z. cbn [app]. lia.
  - change (waited ((e :: events) ++ more))
      with (match e with
            | Sleep ms => Z.of_nat ms + waited (events ++ more)
            | Resolve _ => waited (events ++ more)
            end)%Z.
    change (waited (e :: events))
      with (match e with
            | Sleep ms => Z.of_nat ms + waited events
            | Resolve _ => waited events
            end)%Z.
    rewrite IH. destruct e; lia.
Qed.

Lemma waited_sleep (events : list Event) (ms : nat) :
  waited (events ++ [Sleep ms]) = (waited events + Z.of_nat ms)%Z.
Proof.
  rewrite waited_app. change (waited [Sleep ms]) with (Z.of_nat ms + 0)%Z. lia.
Qed.

Lemma waited_resolve (events : list Event) (url : string) :
  waited (events ++ [Resolve url]) = waited events.
Proof.
  rewrite waited_app. change (waited [Resolve url]) with 0%Z. lia.
Qed.

Ltac milliseconds :=
  change (Z.of_nat 200) with 200%Z in *;
  change (Z.of_nat 300) with 300%Z in *;
  change (Z.of_nat 400) with 400%Z in *;
  change (Z.of_nat 500) with 500%Z in *;
  change (Z.of_nat 800) with 800%Z in *;
  change (Z.of_nat 1000) with 1000%Z in *;
  change (Z.of_nat 1200) with 1200%Z in *.

(** The effects of one visit. *)
Lemma resolve_effects (coin : Coin) (url : string) (w : World) :
  let w' := snd (resolve coin url w) in
  waited (trace w') = (waited (trace w) + 2900)%Z
  /\ drawn w'
     = (drawn w + (if truthy (index actualTwitterFollowers url) then 0 else 1))%nat
  /\ dated w' = dated w
  /\ entropy w' = entropy w
  /\ calendar w' = calendar w.
Proof.
  unfold resolve, fallback. monad.
  destruct (truthy (index actualTwitterFollowers url)); monad;
    [|destruct (entropy w (drawn w))];
    cbn [fst snd trace drawn dated entropy calendar];
    rewrite waited_resolve, !waited_sleep; milliseconds;
    repeat split; lia.
Qed.

(** The effects of one pass of the loop. *)
Lemma step_effects (coin : Coin) (w : World) :
  let w' := snd (step coin w) in
  waited (trace w') = (waited (trace w) + (if both coin then 3900 else 0))%Z
  /\ drawn w' = (drawn w + (if missing coin then 1 else 0))%nat
  /\ dated w' = S (dated w)
  /\ entropy w' = entropy w
  /\ calendar w' = calendar w.
Proof.
  unfold step, missing, both.
  destruct (present (twitter_url coin) && present (twitter_handle coin))%bool.
  - pose proof (resolve_effects coin (default EmptyString (twitter_url coin)) w)
      as (Hw & Hd & Ht & He & Hc).
    monad. destruct (resolve coin _ w) as [followers w1].
    cbn [fst snd trace drawn dated entropy calendar andb negb] in *.
    rewrite waited_sleep, Hw, Hd, Ht, He, Hc. milliseconds.
    destruct (truthy _); cbn [negb]; repeat split; lia.
  - monad. cbn [fst snd trace drawn dated entropy calendar andb].
    repeat split; lia.
Qed.

Lemma loop_effects (cryptoData : list Coin) (w : World) :
  let w' := snd (loop cryptoData [] w) in
  waited (trace w')
  = (waited (trace w) + 3900 * Z.of_nat (length (List.filter both cryptoData)))%Z
  /\ drawn w' = (drawn w + length (List.filter missing cryptoData))%nat
  /\ dated w' = (dated w + length cryptoData)%nat
  /\ entropy w' = entropy w
  /\ calendar w' = calendar w.
Proof.
  revert w. induction cryptoData as [|coin rest IH]; intros w.
  - cbn [loop List.filter length]. monad. repeat split; lia.
  - cbn [loop List.filter]. monad.
    pose proof (step_effects coin w) as (Hw & Hd & Ht & He & Hc).
    destruct (step coin w) as [pushed w1]. rewrite loop_pushes.
    destruct (IH w1) as (IHw & IHd & IHt & IHe & IHc).
    cbn [fst snd] in *.
    rewrite IHw, IHd, IHt, IHe, IHc, Hw, Hd, Ht, He, Hc.
    destruct (both coin), (missing coin); cbn [length];
      repeat split; lia.
Qed.

(** X4: the route waits 3.9 seconds (0.5 + 1.2 + 0.8 + 0.4 before the
    read and 1 after it) for every coin that has a handle and a URL, and
    not at all for the others. *)
Theorem processCryptoData_waits (cryptoData : list Coin) (w : World) :
  waited (trace (snd (processCryptoData cryptoData w)))
  = (waited (trace w)
     + 3900 * Z.of_nat (length (List.filter both cryptoData)))%Z.
Proof.
  pose proof (loop_effects cryptoData w) as (Hw & _).
  unfold processCryptoData. monad.
  destruct (loop cryptoData [] w) as [scrapedData w1]. exact Hw.
Qed.

(** X5: the route draws one random number for every coin whose page is
    not in the table and no other, and reads the clock once for every
    coin and once for the answer; it leaves the sources of randomness
    and of time as they are. *)
Theorem processCryptoData_draws (cryptoData : list Coin) (w : World) :
  let w' := snd (processCryptoData cryptoData w) in
  drawn w' = (drawn w + length (List.filter missing cryptoData))%nat
  /\ dated w' = (dated w + length cryptoData + 1)%nat
  /\ entropy w' = entropy w
  /\ calendar w' = calendar w.
Proof.
  pose proof (loop_effects cryptoData w) as (_ & Hd & Ht & He & Hc).
  unfold processCryptoData. monad.
  destruct (loop cryptoData [] w) as [scrapedData w1].
  cbn [fst snd trace drawn dated entropy calendar] in *.
  repeat split; try assumption. lia.
Qed.

Lemma table_entry (url text : string) :
  actualTwitterFollowers !! url = Some text ->
  truthy_string url = true
  /\ (last_char text = Some "M"%char \/ last_char text = Some "K"%char).
Proof.
  intros Hlook. apply elem_of_list_to_map_2 in Hlook.
  repeat (apply elem_of_cons in Hlook as [Hlook | Hlook];
          [injection Hlook as -> ->; split; [reflexivity | auto]|]).
  now apply elem_of_nil in Hlook.
Qed.

(** A text that ends in M or K is counted as follower data. *)
Lemma unit_counts (text : string) :
  last_char text = Some "M"%char \/ last_char text = Some "K"%char ->
  (truthy_string text && negb (String.eqb text "0")
   && negb (String.eqb text "No Twitter"))%bool = true.
Proof.
  intros Hlast.
  destruct (String.eqb_spec text "0") as [Heq|_];
    [rewrite Heq in Hlast; destruct Hlast; discriminate|].
  destruct (String.eqb_spec text "No Twitter") as [Heq|_];
    [rewrite Heq in Hlast; destruct Hlast; discriminate|].
  destruct text; [destruct Hlast; discriminate | reflexivity].
Qed.

(** X6: a count that the table holds is passed on as it is, and no
    random number is drawn for it. *)
Theorem found_count_verbatim (coin : Coin) (handle url text : string)
    (w : World) :
  twitter_handle coin = Some handle ->
  twitter_url coin = Some url ->
  truthy_string handle = true ->
  actualTwitterFollowers !! url = Some text ->
  fst (step coin w)
  = record coin (JStr handle) (JStr url) (JStr text) (calendar w (dated w))
  /\ drawn (snd (step coin w)) = drawn w.
Proof.
  intros Hhandle Hurl Hh Hlook.
  destruct (table_entry url text Hlook) as [Hu Hlast].
  assert (Htext: truthy_string text = true).
  { destruct text; [destruct Hlast; discriminate | reflexivity]. }
  unfold step, resolve. rewrite Hhandle, Hurl. cbn [present].
  rewrite Hh, Hu. cbn [andb default from_option id]. monad. unfold id.
  unfold index. rewrite Hlook. cbn [truthy]. rewrite Htext.
  monad. split; reflexivity.
Qed.

Lemma found_count_verbatim_witness :
  let coin := mkCoin 9 "Avalanche" "AVAX" (Some "avax")
                (Some "https://x.com/avax") (inject_Z 38000000000)
                (9845 # 100) None in
  get (fst (step coin (example_world 1 2))) "followers" = Some (JStr "890K")
  /\ drawn (snd (step coin (example_world 1 2))) = 0%nat.
Proof.
  intros coin.
  destruct (found_count_verbatim coin "avax" "https://x.com/avax" "890K"
              (example_world 1 2) eq_refl eq_refl eq_refl eq_refl)
    as [Hrecord Hdrawn].
  split; [now rewrite Hrecord | exact Hdrawn].
Defined.

(** The followers of a visit are a text that ends in M or K, unless the
    URL names a member of [Object.prototype]. *)
Lemma resolve_text (coin : Coin) (url : string) (w : World) :
  existsb (String.eqb url) object_prototype_names = false ->
  exists text,
    fst (resolve coin url w) = JStr text
    /\ (last_char text = Some "M"%char \/ last_char text = Some "K"%char).
Proof.
  intros Hplain. unfold resolve. monad. unfold index, inherited.
  destruct (actualTwitterFollowers !! url) as [text|] eqn:Hlook.
  - destruct (table_entry url text Hlook) as [_ Hlast].
    assert (Htext: truthy_string text = true)
      by (destruct text; [destruct Hlast; discriminate | reflexivity]).
    cbn [truthy]. rewrite Htext. monad. eauto.
  - rewrite Hplain. cbn [truthy].
    match goal with
    | |- context [fallback coin ?w1] =>
        destruct (fallback_text coin w1) as [digits Hfall]; rewrite Hfall
    end.
    cbn [fst]. eexists. split; [reflexivity|].
    destruct (gt _ _); rewrite last_char_append; auto.
Qed.

(** The record of a coin, as it arrives at the dashboard, has a handle
    exactly when the coin has handle and URL, and then it counts as
    follower data. *)
Lemma step_counted (coin : Coin) (w : World) :
  plain coin = true ->
  unprintable (fst (step coin w)) = false
  /\ withTwitter (json (fst (step coin w))) = Some (both coin)
  /\ withFollowers (json (fst (step coin w))) = Some (both coin).
Proof.
  intros Hplain. unfold step, both.
  destruct (present (twitter_url coin) && present (twitter_handle coin))%bool
    eqn:Hboth.
  - apply andb_prop in Hboth as [Hu Hh].
    destruct (twitter_url coin) as [url|] eqn:Hurl; [|discriminate].
    destruct (twitter_handle coin) as [handle|] eqn:Hhandle; [|discriminate].
    cbn [present] in Hu, Hh. unfold plain in Hplain. rewrite Hurl in Hplain.
    cbn [default from_option id] in *. unfold id in *.
    apply negb_true_iff in Hplain.
    destruct (resolve_text coin url w Hplain) as (text & Htext & Hlast).
    monad. destruct (resolve coin url w) as [followers w1].
    cbn [fst] in Htext. subst followers. monad. cbn [fst].
    split; [reflexivity|]. split.
    + unfold withTwitter. cbn. now rewrite Hh.
    + unfold withFollowers. cbn. now rewrite (unit_counts text Hlast).
  - monad. cbn [fst]. repeat split.
Qed.

Lemma count_by_cons (predicate : jsval -> option bool) (coin : jsval)
    (rest : list jsval) :
  count_by predicate (coin :: rest)
  = match predicate coin with
    | None => None
    | Some keep =>
        match count_by predicate rest with
        | None => None
        | Some n => Some (if keep then S n else n)
        end
    end.
Proof.
  unfold count_by. cbn [filter_by].
  destruct (predicate coin) as [[]|]; [| |reflexivity];
    now destruct (filter_by predicate rest).
Qed.

Lemma loop_counted (cryptoData : list Coin) (w : World) :
  Forall (fun coin => plain coin = true) cryptoData ->
  coinsWithTwitter (wire (fst (loop cryptoData [] w)))
  = Some (length (List.filter both cryptoData))
  /\ coinsWithFollowers (wire (fst (loop cryptoData [] w)))
     = Some (length (List.filter both cryptoData)).
Proof.
  intros Hplain. revert w.
  induction Hplain as [|coin rest Hcoin _ IH]; intros w.
  - now split.
  - cbn [loop List.filter]. monad.
    destruct (step_counted coin w Hcoin) as (Hprint & Htw & Hfol).
    destruct (step coin w) as [pushed w1]. rewrite loop_pushes.
    cbn [fst app] in *. destruct (IH w1) as [IHtw IHfol].
    unfold coinsWithTwitter, coinsWithFollowers, wire in *.
    cbn [json map items_of] in *. rewrite Hprint.
    rewrite !count_by_cons, Htw, Hfol, IHtw, IHfol.
    now destruct (both coin).
Qed.

(** X7: on the records of an answer, as they arrive at the dashboard,
    the counters "With Twitter" and "Follower Data" agree: both count
    the coins that have a handle and a URL.  (The URLs must not name a
    member of [Object.prototype].) *)
Theorem counters_agree (cryptoData : list Coin) (w : World) :
  Forall (fun coin => plain coin = true) cryptoData ->
  exists merged,
    fst (processCryptoData cryptoData w) = Ok merged
    /\ coinsWithTwitter (wire (data merged))
       = Some (length (List.filter both cryptoData))
    /\ coinsWithFollowers (wire (data merged))
       = Some (length (List.filter both cryptoData)).
Proof.
  intros Hplain. destruct (loop_counted cryptoData w Hplain) as [Htw Hfol].
  unfold processCryptoData. monad.
  destruct (loop cryptoData [] w) as [scrapedData w1]. cbn [fst] in *.
  eexists. split; [reflexivity|]. cbn [data]. now split.
Qed.

Lemma counters_agree_witness :
  let a := mkCoin 1 "Alpha" "ALP" (Some "alpha") (Some "https://x.com/alpha")
             0 0 None in
  let b := mkCoin 2 "Beta" "BET" None None 0 0 None in
  let c := mkCoin 3 "Gamma" "GAM" (Some "gamma") None 0 0 None in
  exists merged,
    fst (processCryptoData [a; b; c] (example_world 1 2)) = Ok merged
    /\ coinsWithTwitter (wire (data merged)) = Some 1%nat
    /\ coinsWithFollowers (wire (data merged)) = Some 1%nat.
Proof.
  intros a b c.
  exact (counters_agree [a; b; c] (example_world 1 2)
           ltac:(repeat constructor)).
Defined.

(** ** The route [/api/scrape-coingecko], continued *)

Lemma profiles_app (coins more : list Coin) :
  profiles (coins ++ more) = profiles coins ++ profiles more.
Proof. unfold profiles. apply omap_app. Qed.

(** What one visit adds to the two arrays, and how long it waits. *)
Lemma visit_adds (coin : ScrapeCoinGecko.Entry) (acc : ScrapeCoinGecko.Found)
    (w : World) :
  let acc' := fst (ScrapeCoinGecko.visit coin acc w) in
  let w' := snd (ScrapeCoinGecko.visit coin acc w) in
  (exists added,
      ScrapeCoinGecko.found_coinData acc'
      = ScrapeCoinGecko.found_coinData acc ++ [added]
      /\ rank added = ScrapeCoinGecko.rank coin
      /\ name added = ScrapeCoinGecko.name coin
      /\ ScrapeCoinGecko.found_twitterAccounts acc'
         = ScrapeCoinGecko.found_twitterAccounts acc ++ profiles [added]
      /\ length (profiles [added]) = (if handled coin then 1 else 0)%nat)
  /\ waited (trace w')
     = (waited (trace w) + 1300
        + (if (ScrapeCoinGecko.rank coin <? 10)%Z then 500 else 0))%Z
  /\ dated w' = dated w /\ calendar w' = calendar w.
Proof.
  unfold ScrapeCoinGecko.visit, handled. monad.
  split.
  - assert (Hpage: forall h rest,
               profiles [mkCoin (ScrapeCoinGecko.rank coin)
                           (ScrapeCoinGecko.name coin)
                           (ScrapeCoinGecko.symbol coin) (Some h)
                           (Some ("https://x.com/" +:+ h))
                           (ScrapeCoinGecko.market_cap coin)
                           (ScrapeCoinGecko.price coin) rest]
               = if truthy_string h then ["https://x.com/" +:+ h] else []).
    { intros h rest. destruct h; reflexivity. }
    destruct (ScrapeCoinGecko.twitter_handle coin) as [h|] eqn:Hhandle;
      cbn [present default from_option id]; unfold id;
      [destruct (truthy_string h) eqn:Hh|];
      destruct (ScrapeCoinGecko.rank coin <? 10)%Z; monad; cbn [fst];
      eexists; (split; [reflexivity|]); cbn [rank name];
      (split; [reflexivity|]); (split; [reflexivity|]);
      rewrite ?Hpage, ?Hh; rewrite ?app_nil_r; split; reflexivity.
  - destruct (present (ScrapeCoinGecko.twitter_handle coin));
      destruct (ScrapeCoinGecko.rank coin <? 10)%Z; monad;
      cbn [fst snd trace dated calendar];
      rewrite !waited_sleep; milliseconds; repeat split; lia.
Qed.

Lemma gecko_loop (listing : list ScrapeCoinGecko.Entry)
    (acc : ScrapeCoinGecko.Found) (w : World) :
  let acc' := fst (ScrapeCoinGecko.loop listing acc w) in
  let w' := snd (ScrapeCoinGecko.loop listing acc w) in
  map rank (ScrapeCoinGecko.found_coinData acc')
  = map rank (ScrapeCoinGecko.found_coinData acc)
    ++ map ScrapeCoinGecko.rank listing
  /\ map name (ScrapeCoinGecko.found_coinData acc')
     = map name (ScrapeCoinGecko.found_coinData acc)
       ++ map ScrapeCoinGecko.name listing
  /\ (profiles (ScrapeCoinGecko.found_coinData acc)
      = ScrapeCoinGecko.found_twitterAccounts acc ->
      profiles (ScrapeCoinGecko.found_coinData acc')
      = ScrapeCoinGecko.found_twitterAccounts acc')
  /\ length (ScrapeCoinGecko.found_twitterAccounts acc')
     = (length (ScrapeCoinGecko.found_twitterAccounts acc)
        + length (List.filter handled listing))%nat
  /\ waited (trace w')
     = (waited (trace w) + 1300 * Z.of_nat (length listing)
        + 500 * Z.of_nat (length (List.filter
                                    (fun e => (ScrapeCoinGecko.rank e <? 10)%Z)
                                    listing)))%Z
  /\ dated w' = dated w /\ calendar w' = calendar w.
Proof.
  revert acc w. induction listing as [|coin rest IH]; intros acc w.
  - cbn [ScrapeCoinGecko.loop List.filter length map]. monad.
    rewrite !app_nil_r. repeat split; auto; lia.
  - cbn [ScrapeCoinGecko.loop List.filter map]. monad.
    pose proof (visit_adds coin acc w)
      as ((added & Hdata & Hrank & Hname & Hurls & Hone) & Hw & Ht & Hc).
    destruct (ScrapeCoinGecko.visit coin acc w) as [acc1 w1].
    cbn [fst snd] in *.
    destruct (IH acc1 w1) as (IHr & IHn & IHp & IHl & IHw & IHt & IHc).
    rewrite IHr, IHn, IHl, IHw, IHt, IHc, Hdata, Hurls, Hw, Ht, Hc.
    rewrite !map_app, length_app, Hone. cbn [map]. rewrite Hrank, Hname.
    rewrite <- !app_assoc. cbn [app].
    split; [reflexivity|]. split; [reflexivity|]. split.
    + intros Hp. apply IHp. rewrite Hdata, Hurls, profiles_app. now rewrite Hp.
    + destruct (handled coin), (ScrapeCoinGecko.rank coin <? 10)%Z;
        cbn [length]; repeat split; lia.
Qed.

Lemma listing_answer_pages (listing : list ScrapeCoinGecko.Entry) (w : World)
    (result : ScrapeCoinGecko.Result) :
  fst (ScrapeCoinGecko.scrape listing w) = Ok result ->
  ScrapeCoinGecko.twitterUrls result
  = profiles (ScrapeCoinGecko.coinData result).
Proof.
  unfold ScrapeCoinGecko.scrape. monad.
  match goal with
  | |- context [ScrapeCoinGecko.loop listing ?acc ?w1] =>
      pose proof (gecko_loop listing acc w1) as (_ & _ & Hp & _);
      destruct (ScrapeCoinGecko.loop listing acc w1) as [acc' w2]
  end.
  cbn [fst snd ScrapeCoinGecko.found_coinData
       ScrapeCoinGecko.found_twitterAccounts] in *.
  intros Hanswer. injection Hanswer as <-.
  cbn [ScrapeCoinGecko.coinData ScrapeCoinGecko.twitterUrls].
  symmetry. exact (Hp eq_refl).
Qed.

(** X8: for any listing table, the listing route answers with one
    record per entry, in the order of the table and with its ranks and
    names; [twitterUrls] are exactly the profile pages of the records
    that have a handle, [twitterAccounts] counts the entries with a
    handle and never exceeds [totalCoins]. *)
Theorem listing_answer (listing : list ScrapeCoinGecko.Entry) (w : World) :
  exists result,
    fst (ScrapeCoinGecko.scrape listing w) = Ok result
    /\ ScrapeCoinGecko.totalCoins result = length listing
    /\ map rank (ScrapeCoinGecko.coinData result)
       = map ScrapeCoinGecko.rank listing
    /\ map name (ScrapeCoinGecko.coinData result)
       = map ScrapeCoinGecko.name listing
    /\ ScrapeCoinGecko.twitterUrls result
       = profiles (ScrapeCoinGecko.coinData result)
    /\ ScrapeCoinGecko.twitterAccounts result
       = length (List.filter handled listing)
    /\ (ScrapeCoinGecko.twitterAccounts result
        <= ScrapeCoinGecko.totalCoins result)%nat.
Proof.
  unfold ScrapeCoinGecko.scrape. monad.
  match goal with
  | |- context [ScrapeCoinGecko.loop listing ?acc ?w1] =>
      pose proof (gecko_loop listing acc w1) as (Hr & Hn & Hp & Hl & _);
      destruct (ScrapeCoinGecko.loop listing acc w1) as [acc' w2]
  end.
  cbn [fst snd ScrapeCoinGecko.found_coinData
       ScrapeCoinGecko.found_twitterAccounts map app length] in *.
  eexists. split; [reflexivity|].
  cbn [ScrapeCoinGecko.totalCoins ScrapeCoinGecko.coinData
       ScrapeCoinGecko.twitterUrls ScrapeCoinGecko.twitterAccounts].
  assert (Hlen: length (ScrapeCoinGecko.found_coinData acc') = length listing).
  { rewrite <- (length_map rank), Hr. apply length_map. }
  rewrite Hlen, Hl, Hr, Hn, (Hp eq_refl).
  repeat split. apply List.filter_length_le.
Qed.

(** X9: the listing route waits one second, then 1.3 seconds for every
    entry and half a second more for every entry ranked under 10; the
    table of the source makes that 18.5 seconds.  It reads the clock
    once. *)
Theorem listing_waits (listing : list ScrapeCoinGecko.Entry) (w : World) :
  waited (trace (snd (ScrapeCoinGecko.scrape listing w)))
  = (waited (trace w) + 1000 + 1300 * Z.of_nat (length listing)
     + 500 * Z.of_nat (length (List.filter
                                 (fun e => (ScrapeCoinGecko.rank e <? 10)%Z)
                                 listing)))%Z
  /\ dated (snd (ScrapeCoinGecko.scrape listing w)) = S (dated w)
  /\ waited (trace (snd (ScrapeCoinGecko.POST w)))
     = (waited (trace w) + 18500)%Z.
Proof.
  assert (Hgen: forall table,
             waited (trace (snd (ScrapeCoinGecko.scrape table w)))
             = (waited (trace w) + 1000 + 1300 * Z.of_nat (length table)
                + 500 * Z.of_nat
                    (length (List.filter
                               (fun e => (ScrapeCoinGecko.rank e <? 10)%Z)
                               table)))%Z
             /\ dated (snd (ScrapeCoinGecko.scrape table w)) = S (dated w)).
  { intros table. unfold ScrapeCoinGecko.scrape. monad.
    match goal with
    | |- context [ScrapeCoinGecko.loop table ?acc ?w1] =>
        pose proof (gecko_loop table acc w1) as (_ & _ & _ & _ & Hw & Ht & _);
        destruct (ScrapeCoinGecko.loop table acc w1) as [acc' w2]
    end.
    cbn [fst snd trace dated calendar] in *.
    rewrite Hw, Ht, waited_sleep. milliseconds. split; lia. }
  destruct (Hgen listing) as [Hw Ht]. split; [exact Hw|]. split; [exact Ht|].
  unfold ScrapeCoinGecko.POST. destruct (Hgen ScrapeCoinGecko.coinGeckoData) as [-> _].
  change (length ScrapeCoinGecko.coinGeckoData) with 10%nat.
  change (length (List.filter (fun e => (ScrapeCoinGecko.rank e <? 10)%Z)
                    ScrapeCoinGecko.coinGeckoData)) with 9%nat.
  lia.
Qed.

(** X10: the two routes fit together.  When the listing route reports
    some profile page, the resolution route, given that answer as the
    dashboard passes it on, visits exactly the reported pages, in the
    reported order. *)
Theorem listing_then_resolution (listing : list ScrapeCoinGecko.Entry)
    (w w2 : World) (result : ScrapeCoinGecko.Result) :
  fst (ScrapeCoinGecko.scrape listing w) = Ok result ->
  ScrapeCoinGecko.twitterUrls result <> [] ->
  visits (trace (snd (POST (Readable
                              (Some (ScrapeCoinGecko.coinData result))
                              (JArr (map JStr
                                       (ScrapeCoinGecko.twitterUrls result))))
                           w2)))
  = visits (trace w2) ++ ScrapeCoinGecko.twitterUrls result.
Proof.
  intros Hanswer Hurls.
  pose proof (listing_answer_pages listing w result Hanswer) as Hpages.
  unfold POST. cbn [truthy get default from_option id].
  assert (Hlen: is_zero (JNum (inject_Z (Z.of_nat
                   (length (map JStr (ScrapeCoinGecko.twitterUrls result))))))
                = false)
    by (destruct (ScrapeCoinGecko.twitterUrls result);
        [congruence | reflexivity]).
  change (String.eqb "length" "length") with true. cbv iota. rewrite Hlen.
  unfold id. pose proof (loop_trace (ScrapeCoinGecko.coinData result) w2) as Ht.
  unfold processCryptoData. monad.
  destruct (loop (ScrapeCoinGecko.coinData result) [] w2) as [scrapedData w3].
  cbn [fst snd trace] in *. now rewrite Ht, Hpages.
Qed.

Lemma listing_then_resolution_witness :
  let listing :=
    [ ScrapeCoinGecko.entry 1 "Bitcoin" "BTC" "bitcoin" "bitcoin"
        (inject_Z 1280000000000) (6543221 # 100);
      ScrapeCoinGecko.mkEntry 2 "Nameless" "NML" "nameless"
        "https://www.coingecko.com/en/coins/nameless" EmptyString None 1 1 ] in
  let result :=
    ScrapeCoinGecko.mkResult 2 1
      [ mkCoin 1 "Bitcoin" "BTC" (Some "bitcoin") (Some "https://x.com/bitcoin")
          (inject_Z 1280000000000) (6543221 # 100)
          (Some "https://assets.coingecko.com/coins/images/100/large/bitcoin.png");
        mkCoin 2 "Nameless" "NML" None None 1 1 (Some EmptyString) ]
      ["https://x.com/bitcoin"] noon in
  fst (ScrapeCoinGecko.scrape listing (example_world 0 1)) = Ok result
  /\ visits (trace (snd (POST (Readable
                                 (Some (ScrapeCoinGecko.coinData result))
                                 (JArr (map JStr
                                          (ScrapeCoinGecko.twitterUrls result))))
                              (example_world 0 1))))
     = visits (trace (example_world 0 1)) ++ ScrapeCoinGecko.twitterUrls result.
Proof.
  intros listing result.
  assert (Hanswer: fst (ScrapeCoinGecko.scrape listing (example_world 0 1))
                   = Ok result) by (vm_compute; reflexivity).
  split; [exact Hanswer|].
  exact (listing_then_resolution listing (example_world 0 1)
           (example_world 0 1) result Hanswer ltac:(discriminate)).
Defined.

(** ** The dashboard and the routes together, continued *)

(** X11: the stored snapshot changes only when a commit request of the
    dashboard is answered, and then as the route [/api/followers] says;
    no click, no timer, no failed request and no other answer touches
    it. *)
Theorem snapshot_changes_only_on_commit (loaded : nat -> string) (a : Action)
    (s : System) :
  scrapedCryptoData (react loaded a s) <> scrapedCryptoData s ->
  exists i body,
    a = Settle i Answered
    /\ pending s !! i = Some (StoreRequest body)
    /\ scrapedCryptoData (react loaded a s)
       = fst (Followers.POST (Followers.Json body) (scrapedCryptoData s)).
Proof.
  intros Hchanged. destruct a as [| |i o]; cbn [react] in *.
  - exfalso. apply Hchanged. clear Hchanged. unfold runFullScraper.
    now destruct (scraping (page s)).
  - exfalso. apply Hchanged. clear Hchanged. now destruct (loading (page s)).
  - destruct (pending s !! i) as [t|] eqn:Hi; [|congruence].
    destruct t as [|result|body|body|in_run|].
    + exfalso. apply Hchanged. clear Hchanged. destruct o; page_fields;
        [destruct (ScrapeCoinGecko.POST (world s)) as [[result|] w']|..];
        reflexivity.
    + exfalso. apply Hchanged. clear Hchanged. destruct o; reflexivity.
    + exfalso. apply Hchanged. clear Hchanged. destruct o; page_fields;
        [destruct (POST body (world s)) as [[result|] w']|..]; reflexivity.
    + destruct o.
      * exists i, body. split; [reflexivity|]. split; [exact Hi|].
        page_fields.
        now destruct (Followers.POST (Followers.Json body) (scrapedCryptoData s)).
      * exfalso. apply Hchanged. clear Hchanged. reflexivity.
      * exfalso. apply Hchanged. clear Hchanged. reflexivity.
    + exfalso. apply Hchanged. clear Hchanged. destruct o, in_run; page_fields; reflexivity.
    + exfalso. apply Hchanged. clear Hchanged. page_fields. reflexivity.
Qed.

Lemma snapshot_changes_only_on_commit_witness :
  let merged := JObj [("rank", JNum 1)] in
  let s := mkSystem (mkPage [] false true Blank complete) [] (example_world 0 1)
                    [ResetTimer; StoreRequest (JObj [("data", JArr [merged])])] in
  exists i body,
    Settle 1 Answered = Settle i Answered
    /\ pending s !! i = Some (StoreRequest body)
    /\ scrapedCryptoData (react (fun _ => noon) (Settle 1 Answered) s)
       = fst (Followers.POST (Followers.Json body) (scrapedCryptoData s)).
Proof.
  intros merged s.
  exact (snapshot_changes_only_on_commit (fun _ => noon) (Settle 1 Answered) s
           ltac:(discriminate)).
Defined.

Lemma existsb_delete (tasks : list Task) (i : nat) (t : Task)
    (test : Task -> bool) :
  tasks !! i = Some t -> test t = false ->
  existsb test (delete i tasks) = existsb test tasks.
Proof.
  revert i. induction tasks as [|first rest IH]; intros i Hi Ht; [discriminate|].
  destruct i as [|i].
  - injection Hi as ->. change (delete 0%nat (t :: rest)) with rest.
    cbn [existsb]. now rewrite Ht.
  - change (delete (S i) (first :: rest)) with (first :: delete i rest).
    cbn [existsb]. now rewrite (IH i Hi Ht).
Qed.

Lemma existsb_spawn (tasks : list Task) (t : Task) (test : Task -> bool) :
  existsb test (tasks ++ [t]) = (existsb test tasks || test t)%bool.
Proof. rewrite existsb_app. cbn. now rewrite orb_false_r. Qed.


Lemma react_loading (loaded : nat -> string) (a : Action) (s : System) :
  loading_has_cause s -> loading_has_cause (react loaded a s).
Proof.
  unfold loading_has_cause. intros Hs. destruct a as [| |i o]; cbn [react].
  - unfold runFullScraper. destruct (scraping (page s)); [exact Hs|].
    page_fields. intros Hl. rewrite existsb_spawn, (Hs Hl). reflexivity.
  - destruct (loading (page s)) eqn:Hl; [intros _; now apply Hs|].
    page_fields. intros _. rewrite existsb_spawn. cbn. apply orb_true_r.
  - destruct (pending s !! i) as [t|] eqn:Hi; [|exact Hs].
    pose proof (existsb_delete (pending s) i t reading_followers Hi) as Hdel.
    destruct t as [|result|body|body|in_run|]; cbn [reading_followers] in Hdel.
    + destruct o; page_fields;
        [destruct (ScrapeCoinGecko.POST (world s)) as [[result|] w']|..];
        page_fields; intros Hl; rewrite !existsb_spawn, Hdel, (Hs Hl);
        reflexivity.
    + destruct o; page_fields; intros Hl;
        rewrite existsb_spawn, Hdel, (Hs Hl); reflexivity.
    + destruct o; page_fields;
        [destruct (POST body (world s)) as [[result|] w']|..];
        page_fields; intros Hl; rewrite ?existsb_spawn, Hdel, (Hs Hl);
        reflexivity.
    + destruct o; page_fields;
        [destruct (Followers.POST _ _) as [stored reply]|..];
        page_fields; intros Hl; rewrite ?existsb_spawn;
        cbn [reading_followers]; rewrite ?orb_true_r; try reflexivity.
      rewrite Hdel by reflexivity. exact (Hs Hl).
    + destruct o, in_run; page_fields; discriminate.
    + page_fields. intros Hl. rewrite Hdel by reflexivity. exact (Hs Hl).
Qed.

(** X12: the page never shows "loading" without a cause: in every state
    that can be reached, while [loading] is set a read of
    [/api/followers] is pending, so the flag is cleared when that read
    ends, however it ends. *)
Theorem loading_means_reading (loaded : nat -> string) (s : System) :
  reachable loaded s ->
  loading (page s) = true ->
  existsb reading_followers (pending s) = true
  /\ (forall i in_run o,
         pending s !! i = Some (FollowersRequest in_run) ->
         loading (page (react loaded (Settle i o) s)) = false).
Proof.
  intros Hs Hl. split.
  - revert Hl. change (loading_has_cause s).
    induction Hs as [w | a s _ IH]; [intros _; reflexivity|].
    now apply react_loading.
  - intros i in_run o Hi. cbn [react]. rewrite Hi.
    destruct o, in_run; page_fields; reflexivity.
Qed.

Lemma loading_means_reading_witness :
  let s := react (fun _ => noon) Refresh
             (run (fun _ => noon) [Settle 0 Answered]
                  (mounted (example_world 0 1))) in
  existsb reading_followers (pending s) = true
  /\ (forall i in_run o,
         pending s !! i = Some (FollowersRequest in_run) ->
         loading (page (react (fun _ => noon) (Settle i o) s)) = false).
Proof.
  intros s.
  exact (loading_means_reading (fun _ => noon) s
           (reachable_react _ _ _
              (run_reachable _ _ _ (reachable_mounted _ (example_world 0 1))))
           eq_refl).
Defined.

(** ** No made-up count in the pipeline of the dashboard *)

(** The record of a coin whose page the table has carries the count of
    the table, also after the wire. *)
Lemma step_from_table (coin : Coin) (text : string) (w : World) :
  missing coin = false ->
  table_count coin = Some (JStr text) ->
  unprintable (fst (step coin w)) = false
  /\ get (json (fst (step coin w))) "followers" = Some (JStr text).
Proof.
  unfold missing, table_count, both, step. intros Hmiss Hcount.
  destruct (present (twitter_url coin) && present (twitter_handle coin))%bool.
  - cbn [andb] in Hmiss. apply negb_false_iff in Hmiss.
    injection Hcount as Hcount. unfold resolve. monad.
    rewrite Hmiss, Hcount. monad. cbn [fst].
    destruct (twitter_handle coin), (twitter_url coin); split; reflexivity.
  - injection Hcount as <-. monad. cbn [fst]. split; reflexivity.
Qed.

Lemma loop_from_table (cryptoData : list Coin) (texts : list string)
    (w : World) :
  List.filter missing cryptoData = [] ->
  map table_count cryptoData = map (fun text => Some (JStr text)) texts ->
  followers_of (wire (fst (loop cryptoData [] w)))
  = map (fun text => Some (JStr text)) texts.
Proof.
  revert texts w.
  induction cryptoData as [|coin rest IH]; intros texts w Hmiss Hcounts.
  - destruct texts; [reflexivity | discriminate].
  - destruct texts as [|text texts]; [discriminate|].
    cbn [map] in Hcounts. injection Hcounts as Hcount Hcounts.
    apply (f_equal Some) in Hcount.
    change (table_count coin = Some (JStr text)) in Hcount.
    cbn [List.filter] in Hmiss.
    destruct (missing coin) eqn:Hcoin; [discriminate|].
    destruct (step_from_table coin text w Hcoin Hcount) as [Hprint Hfol].
    cbn [loop]. monad. destruct (step coin w) as [pushed w1].
    rewrite loop_pushes. cbn [fst app] in *.
    specialize (IH texts w1 Hmiss Hcounts).
    unfold followers_of, wire in *. cbn [json map items_of] in *.
    now rewrite Hprint, Hfol, IH.
Qed.

Lemma genuine_listing (w : World) :
  exists result w',
    ScrapeCoinGecko.POST w = (Ok result, w')
    /\ found_in_table (ScrapeCoinGecko.coinData result)
    /\ ScrapeCoinGecko.twitterUrls result <> []
    /\ drawn w' = drawn w.
Proof.
  destruct (ScrapeCoinGecko.POST w) as [reply w'] eqn:Hpost.
  vm_compute in Hpost. injection Hpost as <- <-.
  eexists _, _. split; [reflexivity|].
  split; [split; vm_compute; reflexivity|].
  split; [discriminate | reflexivity].
Qed.

Lemma genuine_resolution (coins : list Coin) (urls : list string) (w : World) :
  found_in_table coins ->
  urls <> [] ->
  exists result w',
    POST (Readable (Some coins) (JArr (map JStr urls))) w = (Ok result, w')
    /\ drawn w' = drawn w
    /\ exists items,
         json (JObj [("data", JArr (data result))])
         = JObj [("data", JArr items)]
         /\ followers_of items = listed_counts.
Proof.
  intros [Hmiss Hcounts] Hurls. unfold POST.
  cbn [truthy get default from_option id].
  assert (Hlen: is_zero (JNum (inject_Z (Z.of_nat (length (map JStr urls)))))
                = false) by (destruct urls; [congruence | reflexivity]).
  change (String.eqb "length" "length") with true. cbv iota. rewrite Hlen.
  unfold id.
  pose proof (loop_from_table coins _ w Hmiss Hcounts) as Hfol.
  pose proof (loop_effects coins w) as (_ & Hdrawn & _).
  rewrite Hmiss in Hdrawn.
  unfold processCryptoData. monad.
  destruct (loop coins [] w) as [scrapedData w1].
  cbn [fst snd drawn length] in *.
  eexists _, _. split; [reflexivity|]. cbn [drawn data].
  split; [lia|].
  exists (wire scrapedData). split; [reflexivity | exact Hfol].
Qed.

Lemma calm_spawn (t : Task) (tasks : list Task) :
  calm t -> Forall calm tasks -> Forall calm (tasks ++ [t]).
Proof.
  intros Ht Htasks. rewrite Forall_app. split; [exact Htasks|].
  now repeat constructor.
Qed.

Lemma continue_genuine (loaded : nat -> string) (d : nat) (t : Task)
    (o : Outcome) (s : System) :
  calm t -> genuine d s -> genuine d (continue loaded t o s).
Proof.
  intros Ht (Hdrawn & Hstore & Htasks). unfold genuine.
  destruct t as [|result|body|body|in_run|]; cbn [calm] in Ht.
  - destruct o; sys.
    + destruct (genuine_listing (world s))
        as (result & w' & -> & Hfound & Hurls & Hd).
      sys. split; [congruence|]. split; [exact Hstore|].
      apply calm_spawn; [exact I|]. apply calm_spawn; [|exact Htasks].
      cbn [calm]. now split.
    + split; [exact Hdrawn|]. split; [exact Hstore | now apply calm_spawn].
    + split; [exact Hdrawn|]. split; [exact Hstore | now apply calm_spawn].
  - destruct Ht as [Hfound Hurls].
    assert (Hbody: calm (TwitterRequest
                      (Readable (Some (ScrapeCoinGecko.coinData result))
                         (JArr (map JStr (ScrapeCoinGecko.twitterUrls result))))))
      by (cbn [calm]; eauto).
    destruct o; sys;
      (split; [exact Hdrawn|]; split; [exact Hstore | now apply calm_spawn]).
  - destruct Ht as (coins & urls & -> & Hfound & Hurls).
    destruct o; sys.
    + destruct (genuine_resolution coins urls (world s) Hfound Hurls)
        as (result & w' & Hpost & Hd & items & Hjson & Hfol).
      rewrite Hpost. sys. split; [congruence|]. split; [exact Hstore|].
      apply calm_spawn; [|exact Htasks]. cbn [calm]. exists items.
      split; [exact Hjson | exact Hfol].
    + split; [exact Hdrawn|]. split; [exact Hstore | exact Htasks].
    + split; [exact Hdrawn|]. split; [exact Hstore | exact Htasks].
  - destruct Ht as (items & -> & Hfol).
    destruct o; sys.
    + change (Followers.POST (Followers.Json (JObj [("data", JArr items)]))
                (scrapedCryptoData s))
        with (items, Ok (length items) : Reply nat).
      sys. split; [exact Hdrawn|]. split; [now right | now apply calm_spawn].
    + split; [exact Hdrawn|]. split; [exact Hstore | now apply calm_spawn].
    + split; [exact Hdrawn|]. split; [exact Hstore | exact Htasks].
  - destruct o; sys;
      (split; [exact Hdrawn|]; split; [exact Hstore | exact Htasks]).
  - sys. split; [exact Hdrawn|]. split; [exact Hstore | exact Htasks].
Qed.

Lemma react_genuine (loaded : nat -> string) (d : nat) (a : Action)
    (s : System) :
  genuine d s -> genuine d (react loaded a s).
Proof.
  intros (Hdrawn & Hstore & Htasks). destruct a as [| |i o]; cbn [react].
  - unfold runFullScraper. destruct (scraping (page s)); [now split|].
    split; [exact Hdrawn|]. split; [exact Hstore | now apply calm_spawn].
  - destruct (loading (page s)); [now split|].
    split; [exact Hdrawn|]. split; [exact Hstore | now apply calm_spawn].
  - destruct (pending s !! i) as [t|] eqn:Hi; [|now split].
    apply continue_genuine.
    + exact (Forall_lookup_1 _ _ _ _ Htasks Hi).
    + split; [exact Hdrawn|]. split; [exact Hstore|]. sys.
      now apply Forall_delete.
Qed.

(** X13: the pipeline that the dashboard drives never makes up a count.
    Whatever is clicked and however the requests end, no random number
    is drawn, and the stored snapshot is empty or carries, for the ten
    listed coins in order, the counts of the table. *)
Theorem dashboard_never_makes_up (loaded : nat -> string)
    (actions : list Action) (w : World) :
  let s := run loaded actions (mounted w) in
  drawn (world s) = drawn w
  /\ (scrapedCryptoData s = []
      \/ followers_of (scrapedCryptoData s) = listed_counts).
Proof.
  assert (Hrun: forall s0, genuine (drawn w) s0 ->
                           genuine (drawn w) (run loaded actions s0)).
  { induction actions as [|a actions IH]; intros s0 Hs0; [exact Hs0|].
    apply (IH (react loaded a s0)). now apply react_genuine. }
  destruct (Hrun (mounted w)) as (Hdrawn & Hstore & _).
  - split; [reflexivity|]. split; [now left | now repeat constructor].
  - now split.
Qed.

(** X14: a whole run from a page at rest.  With the button enabled and
    nothing pending, one click followed by the answers of the three
    routes (the timer of five seconds firing before the resolution
    answer, as it does) leaves nothing pending, the ten merged records
    stored, the page showing exactly the stored records, the step
    "complete" and the button enabled again. *)
Theorem run_from_rest (loaded : nat -> string) (p : Page)
    (stored : list jsval) (w : World) :
  scraping p = false ->
  let s := run loaded
             [ Click; Settle 0 Answered; Settle 0 Answered; Settle 0 Answered;
               Settle 0 Answered; Settle 0 Answered; Settle 0 Answered ]
             (mkSystem p stored w []) in
  pending s = []
  /\ ranks (scrapedCryptoData s) = one_to_ten
  /\ followers_of (scrapedCryptoData s) = listed_counts
  /\ cryptoData (page s) = scrapedCryptoData s
  /\ scrapingStep (page s) = complete
  /\ scrapingStatus (page s) = ScrapingComplete
  /\ scraping (page s) = false
  /\ loading (page s) = false.
Proof.
  intros Hoff. destruct p as [shown isLoading isScraping text step].
  cbn [scraping] in Hoff. subst isScraping.
  vm_compute. repeat split.
Qed.

Lemma run_from_rest_witness :
  let s := run (fun _ => noon)
             [ Click; Settle 0 Answered; Settle 0 Answered; Settle 0 Answered;
               Settle 0 Answered; Settle 0 Answered; Settle 0 Answered ]
             (mkSystem (mkPage [] false false Blank idle) []
                       (example_world 0 1) []) in
  pending s = []
  /\ ranks (scrapedCryptoData s) = one_to_ten
  /\ followers_of (scrapedCryptoData s) = listed_counts
  /\ cryptoData (page s) = scrapedCryptoData s
  /\ scrapingStep (page s) = complete
  /\ scrapingStatus (page s) = ScrapingComplete
  /\ scraping (page s) = false
  /\ loading (page s) = false.
Proof.
  exact (run_from_rest (fun _ => noon) (mkPage [] false false Blank idle) []
           (example_world 0 1) eq_refl).
Defined.

(** ** The component [ScraperControl] and the route [/api/scraper] *)

Lemma control_in_flight (c : ScraperControl.Control) :
  ScraperControl.reachable c ->
  ScraperControl.in_flight c
  = if ScraperControl.isRunning c then 1%nat else 0%nat.
Proof.
  induction 1 as [|a c _ IH]; [reflexivity|].
  destruct a as [|o]; cbn [ScraperControl.react].
  - unfold ScraperControl.runScraper.
    destruct (ScraperControl.isRunning c) eqn:Hon; [now rewrite Hon|].
    cbn. now rewrite IH.
  - unfold ScraperControl.settled.
    destruct (ScraperControl.in_flight c) as [|others] eqn:Hflight.
    + now rewrite Hflight.
    + destruct (ScraperControl.isRunning c); [|discriminate].
      injection IH as ->. destruct o as [[| |] |]; reflexivity.
Qed.

(** X15: the button of [ScraperControl] admits one request at a time.
    In every state that clicks and answers can reach, at most one
    request is pending, one is pending exactly while [isRunning] is
    set, the status is "running" exactly then, a status "success"
    comes with a time of the last run, the output is empty only
    before the first click, and a click while [isRunning] is set
    changes nothing. *)
Theorem control_one_request (c : ScraperControl.Control) :
  ScraperControl.reachable c ->
  (ScraperControl.in_flight c <= 1)%nat
  /\ (ScraperControl.isRunning c = true <-> ScraperControl.in_flight c = 1%nat)
  /\ (ScraperControl.isRunning c = true
      <-> ScraperControl.status c = ScraperControl.running)
  /\ (ScraperControl.status c = ScraperControl.success ->
      ScraperControl.lastRun c <> None)
  /\ (ScraperControl.output c = EmptyString -> c = ScraperControl.mounted)
  /\ (ScraperControl.isRunning c = true ->
      ScraperControl.react ScraperControl.Click c = c).
Proof.
  intros Hc. pose proof (control_in_flight c Hc) as Hflight.
  split; [destruct (ScraperControl.isRunning c); lia|].
  split; [destruct (ScraperControl.isRunning c); rewrite Hflight;
          split; congruence|].
  assert (Hinv: (ScraperControl.isRunning c = true
                 <-> ScraperControl.status c = ScraperControl.running)
                /\ (ScraperControl.status c = ScraperControl.success ->
                    ScraperControl.lastRun c <> None)
                /\ (ScraperControl.output c = EmptyString ->
                    c = ScraperControl.mounted)).
  { clear Hflight.
    induction Hc as [|a c Hc (Hrun & Hlast & Hout)].
    - repeat split; discriminate.
    - destruct a as [|o]; cbn [ScraperControl.react].
      + unfold ScraperControl.runScraper.
        destruct (ScraperControl.isRunning c) eqn:Hon;
          [split; [rewrite Hon; exact Hrun | exact (conj Hlast Hout)]|].
        repeat split; try discriminate; reflexivity.
      + pose proof (control_in_flight c Hc) as Hflight.
        unfold ScraperControl.settled.
        destruct (ScraperControl.in_flight c) as [|others];
          [exact (conj Hrun (conj Hlast Hout))|].
        destruct o as [[text stamp|text code stamp|text stamp] at_time
                      |message];
          cbn; unfold ScraperControl.or_text;
          (split; [split; discriminate|]);
          (split; [discriminate || (intros _; discriminate)|]);
          try (destruct text; discriminate); discriminate. }
  destruct Hinv as (Hrun & Hlast & Hout).
  repeat split; try apply Hrun; try assumption.
  intros Hon. cbn. unfold ScraperControl.runScraper. now rewrite Hon.
Qed.

Lemma control_one_request_witness :
  let c := ScraperControl.react ScraperControl.Click ScraperControl.mounted in
  (ScraperControl.in_flight c <= 1)%nat
  /\ (ScraperControl.isRunning c = true <-> ScraperControl.in_flight c = 1%nat)
  /\ (ScraperControl.isRunning c = true
      <-> ScraperControl.status c = ScraperControl.running)
  /\ (ScraperControl.status c = ScraperControl.success ->
      ScraperControl.lastRun c <> None)
  /\ (ScraperControl.output c = EmptyString -> c = ScraperControl.mounted)
  /\ (ScraperControl.isRunning c = true ->
      ScraperControl.react ScraperControl.Click c = c).
Proof.
  exact (control_one_request _
           (ScraperControl.reachable_react ScraperControl.Click _
              ScraperControl.reachable_mounted)).
Defined.

Lemma listeners_chunks (chunks rest : list Scraper.Signal)
    (h : Scraper.Handler) (w : World) :
  Forall (fun s => settles s = false) chunks ->
  Scraper.listeners (chunks ++ rest) h w
  = Scraper.listeners rest
      (Scraper.mkHandler (Scraper.output h +:+ written chunks)
                         (Scraper.errorOutput h +:+ complained chunks)
                         (Scraper.resolved h)) w.
Proof.
  intros Hchunks. revert h.
  induction Hchunks as [|s chunks Hs _ IH]; intros h.
  - cbn [app written complained]. rewrite !append_empty_r. now destruct h.
  - destruct s as [chunk|chunk| |]; try discriminate;
      cbn [app Scraper.listeners Scraper.listen]; monad; rewrite IH;
      cbn [Scraper.output Scraper.errorOutput Scraper.resolved
           written complained];
      now rewrite append_assoc.
Qed.

Lemma listen_late (s : Scraper.Signal) (h : Scraper.Handler)
    (answer : Scraper.Answer) (w : World) :
  Scraper.resolved h = Some answer ->
  Scraper.resolved (fst (Scraper.listen s h w)) = Some answer
  /\ dated (snd (Scraper.listen s h w))
     = (dated w + if settles s then 1 else 0)%nat.
Proof.
  intros Hh.
  destruct s as [chunk|chunk|code|message]; cbn [Scraper.listen settles];
    monad; unfold Scraper.resolve; rewrite ?Hh;
    cbn; (split; [reflexivity | lia]).
Qed.

Lemma listeners_late (rest : list Scraper.Signal) (h : Scraper.Handler)
    (answer : Scraper.Answer) (w : World) :
  Scraper.resolved h = Some answer ->
  Scraper.resolved (fst (Scraper.listeners rest h w)) = Some answer
  /\ dated (snd (Scraper.listeners rest h w))
     = (dated w + length (List.filter settles rest))%nat.
Proof.
  revert h w. induction rest as [|s rest IH]; intros h w Hh.
  - cbn. split; [exact Hh | lia].
  - cbn [Scraper.listeners List.filter]. monad.
    destruct (listen_late s h answer w Hh) as [Hanswer Hdated].
    destruct (Scraper.listen s h w) as [h1 w1]. cbn [fst snd] in *.
    destruct (IH h1 w1 Hanswer) as [Hlate Hlater].
    split; [exact Hlate|]. rewrite Hlater, Hdated.
    destruct (settles s); cbn [length]; lia.
Qed.

(** X16: a click on the control at rest, answered by the route for a
    script that writes and then closes or fails to start.  The answer
    is decided by the first [close] or [error]; the clock is read for
    that event and once more for every such event that follows (the
    [close] after a failed start).  The route reports success, with
    status 200, exactly when the script closes with code 0.  The
    control ends at rest; on success it shows "success", the time of
    the answer as last run and what the script wrote to its standard
    output (a fixed text if that is empty); otherwise it shows
    "error", keeps the last run and shows the standard error of the
    script or the message of the failure to start (a fixed text if
    that is empty).  While the script neither closes nor fails, the
    route does not answer. *)
Theorem click_then_script (c : ScraperControl.Control)
    (chunks late : list Scraper.Signal) (ending : Scraper.Signal)
    (at_time : string) (w : World) :
  ScraperControl.reachable c ->
  ScraperControl.isRunning c = false ->
  Forall (fun s => settles s = false) chunks ->
  settles ending = true ->
  fst (Scraper.POST chunks w) = None
  /\ exists answer,
       fst (Scraper.POST (chunks ++ ending :: late) w) = Some answer
       /\ dated (snd (Scraper.POST (chunks ++ ending :: late) w))
          = (dated w + 1 + length (List.filter settles late))%nat
       /\ (Scraper.success answer = true
           <-> ending = Scraper.Close (Some 0%Z))
       /\ (Scraper.status answer = 200%nat
           <-> Scraper.success answer = true)
       /\ let c' := ScraperControl.react
                      (ScraperControl.Settle
                         (ScraperControl.Replied answer at_time))
                      (ScraperControl.react ScraperControl.Click c) in
          ScraperControl.isRunning c' = false
          /\ ScraperControl.in_flight c' = 0%nat
          /\ match ending with
             | Scraper.Close (Some 0%Z) =>
                 ScraperControl.status c' = ScraperControl.success
                 /\ ScraperControl.lastRun c' = Some at_time
                 /\ ScraperControl.output c'
                    = ScraperControl.or_text (written chunks)
                        "Scraper completed successfully"
             | Scraper.Close _ =>
                 ScraperControl.status c' = ScraperControl.error
                 /\ ScraperControl.lastRun c' = ScraperControl.lastRun c
                 /\ ScraperControl.output c'
                    = ScraperControl.or_text (complained chunks)
                        "Scraper failed"
             | Scraper.Error message =>
                 ScraperControl.status c' = ScraperControl.error
                 /\ ScraperControl.lastRun c' = ScraperControl.lastRun c
                 /\ ScraperControl.output c'
                    = ScraperControl.or_text message "Scraper failed"
             | _ => False
             end.
Proof.
  intros Hc Hoff Hchunks Hending.
  pose proof (control_in_flight c Hc) as Hflight. rewrite Hoff in Hflight.
  split.
  { unfold Scraper.POST. monad.
    rewrite <- (app_nil_r chunks), (listeners_chunks chunks [] _ w Hchunks).
    reflexivity. }
  unfold Scraper.POST. monad.
  rewrite (listeners_chunks chunks (ending :: late) _ w Hchunks).
  cbn [Scraper.output Scraper.errorOutput Scraper.resolved append
       Scraper.listeners].
  monad.
  assert (Hsettled: forall answer,
             Scraper.listen ending
               (Scraper.mkHandler (written chunks) (complained chunks) None) w
             = (Scraper.mkHandler (written chunks) (complained chunks)
                  (Some answer), later w) ->
             exists h w',
               Scraper.listeners late
                 (Scraper.mkHandler (written chunks) (complained chunks)
                    (Some answer)) (later w) = (h, w')
               /\ Scraper.resolved h = Some answer
               /\ dated w'
                  = (dated w + 1 + length (List.filter settles late))%nat).
  { intros answer _.
    destruct (listeners_late late
                (Scraper.mkHandler (written chunks) (complained chunks)
                   (Some answer)) answer (later w) eq_refl)
      as [Hanswer Hdated].
    destruct (Scraper.listeners late _ (later w)) as [h w'].
    exists h, w'. split; [reflexivity|]. split; [exact Hanswer|].
    cbn [fst snd] in *. rewrite Hdated. unfold later. cbn [dated]. lia. }
  destruct ending as [chunk|chunk|code|message]; try discriminate;
    cbn [Scraper.listen] in *; monad; unfold Scraper.resolve in *;
    cbn [Scraper.output Scraper.errorOutput Scraper.resolved] in *.
  - destruct code as [[|code|code]|];
      (edestruct Hsettled as (h & w' & -> & Hanswer & Hdated);
       [reflexivity|]);
      cbn [fst snd]; eexists; (split; [exact Hanswer|]);
      (split; [exact Hdated|]);
      cbn [Scraper.success Scraper.status ScraperControl.react];
      unfold ScraperControl.runScraper; rewrite Hoff, Hflight;
      unfold ScraperControl.settled; cbn;
      repeat split; try discriminate; try reflexivity.
  - edestruct Hsettled as (h & w' & -> & Hanswer & Hdated); [reflexivity|].
    cbn [fst snd]. eexists. split; [exact Hanswer|].
    split; [exact Hdated|].
    cbn [Scraper.success Scraper.status ScraperControl.react].
    unfold ScraperControl.runScraper. rewrite Hoff, Hflight.
    unfold ScraperControl.settled. cbn.
    repeat split; try discriminate; try reflexivity.
Qed.

Lemma click_then_script_witness :
  let script := [ Scraper.Stdout "10 coins"; Scraper.Stderr "warning";
                  Scraper.Stdout " done"; Scraper.Close (Some 0%Z) ] in
  let failed := [ Scraper.Error "spawn python3 ENOENT";
                  Scraper.Close (Some (-2)%Z) ] in
  let w := example_world 0 1 in
  fst (Scraper.POST script w) = Some (Scraper.Completed "10 coins done" noon)
  /\ dated (snd (Scraper.POST failed w)) = 2%nat.
Proof.
  destruct (click_then_script ScraperControl.mounted
              [ Scraper.Stdout "10 coins"; Scraper.Stderr "warning";
                Scraper.Stdout " done" ] []
              (Scraper.Close (Some 0%Z)) noon (example_world 0 1)
              ScraperControl.reachable_mounted eq_refl
              ltac:(repeat constructor) eq_refl)
    as (_ & answer & Hanswer & _).
  destruct (click_then_script ScraperControl.mounted
              [] [Scraper.Close (Some (-2)%Z)]
              (Scraper.Error "spawn python3 ENOENT") noon (example_world 0 1)
              ScraperControl.reachable_mounted eq_refl
              ltac:(constructor) eq_refl)
    as (_ & failure & _ & Hdated & _).
  split; [vm_compute; reflexivity | exact Hdated].
Defined.

(** ** The cards and the search of the dashboard *)

Lemma filter_by_length (predicate : jsval -> option bool)
    (cryptoData kept : list jsval) :
  filter_by predicate cryptoData = Some kept ->
  (length kept <= length cryptoData)%nat.
Proof.
  revert kept. induction cryptoData as [|coin rest IH]; intros kept.
  - intros [= <-]. reflexivity.
  - cbn [filter_by]. destruct (predicate coin) as [keep|]; [|discriminate].
    destruct (filter_by predicate rest) as [others|]; [|discriminate].
    intros [= <-]. specialize (IH others eq_refl).
    destruct keep; cbn [length]; lia.
Qed.

Lemma Math_round_bounds (x : Q) :
  (0 <= x)%Q -> (x <= 100)%Q -> (0 <= Math_round x <= 100)%Z.
Proof.
  intros Hlow Hhigh. unfold Math_round. split.
  - change 0%Z with (Qfloor (0 + (1 # 2))%Q). apply Qfloor_resp_le.
    now apply Qplus_le_l.
  - change 100%Z with (Qfloor (100 + (1 # 2))%Q). apply Qfloor_resp_le.
    now apply Qplus_le_l.
Qed.

Lemma div_counts (part total : nat) :
  (0 < total)%nat ->
  div (of_Z (Z.of_nat part)) (of_Z (Z.of_nat total))
  = double (inject_Z (Z.of_nat part) / inject_Z (Z.of_nat total)).
Proof.
  intros Htotal. unfold div, of_Z.
  assert (Hzero: Qzero (inject_Z (Z.of_nat total)) = false).
  { unfold Qzero. cbn [Qnum inject_Z]. apply Z.eqb_neq. lia. }
  now rewrite Hzero.
Qed.

Lemma figure_bounds (part total : nat) :
  (part <= total)%nat ->
  exists k : Z, figure part total = of_Z k /\ (0 <= k <= 100)%Z.
Proof.
  intros Hle. unfold figure. destruct (0 <? total)%nat eqn:Htotal;
    [|exists 0%Z; split; [reflexivity | lia]].
  apply Nat.ltb_lt in Htotal.
  assert (Hpos: (0 < inject_Z (Z.of_nat total))%Q) by (integers; lia).
  rewrite (div_counts part total Htotal).
  destruct (double_bounds
              (inject_Z (Z.of_nat part) / inject_Z (Z.of_nat total)) 1)
    as (x & -> & Hx0 & Hx1).
  { apply Qle_shift_div_l; [exact Hpos|]. rewrite Qmult_0_l.
    integers. lia. }
  { apply Qle_shift_div_r; [exact Hpos|]. rewrite Qmult_1_l.
    integers. lia. }
  { reflexivity. }
  unfold mul, of_Z.
  destruct (double_bounds (x * inject_Z 100) 100) as (y & -> & Hy0 & Hy1).
  { apply Qmult_le_0_compat; [exact Hx0 | discriminate]. }
  { apply (Qle_trans _ (inject_Z 1 * inject_Z 100));
      [|compute; discriminate].
    apply Qmult_le_compat_r; [exact Hx1 | discriminate]. }
  { reflexivity. }
  cbn [rounded]. eexists. split; [reflexivity|].
  now apply Math_round_bounds.
Qed.

Lemma figure_full (total : nat) :
  (0 < total)%nat -> figure total total = of_Z 100.
Proof.
  intros Htotal. unfold figure.
  apply Nat.ltb_lt in Htotal as Htest. rewrite Htest.
  rewrite (div_counts total total Htotal).
  rewrite (double_comp _ (inject_Z 1)).
  - rewrite double_Z by lia. unfold mul, of_Z.
    rewrite (double_comp _ (inject_Z 100)) by reflexivity.
    rewrite double_Z by lia. reflexivity.
  - apply Qmult_inv_r. intros H. unfold Qeq in H. cbn in H. lia.
Qed.

(** X17: the coverage under the counter "With Twitter" is a percentage.
    Whenever the counter can be computed, it is at most the number of
    coins, and the figure that the page computes under it, in doubles,
    is a whole number between 0 and 100: 0 when there is no coin, 100
    when every coin counts. *)
Theorem coverage_is_a_percentage (cryptoData : list jsval) (n : nat) :
  coinsWithTwitter cryptoData = Some n ->
  (n <= totalCoins cryptoData)%nat
  /\ (exists k : Z,
         figure n (totalCoins cryptoData) = of_Z k /\ (0 <= k <= 100)%Z)
  /\ (cryptoData = [] -> figure n (totalCoins cryptoData) = of_Z 0)
  /\ (cryptoData <> [] -> n = totalCoins cryptoData ->
      figure n (totalCoins cryptoData) = of_Z 100).
Proof.
  unfold coinsWithTwitter, count_by, totalCoins. intros Hcount.
  destruct (filter_by withTwitter cryptoData) as [kept|] eqn:Hkept;
    [|discriminate].
  injection Hcount as <-. apply filter_by_length in Hkept.
  split; [exact Hkept|]. split; [now apply figure_bounds|]. split.
  - intros ->. reflexivity.
  - intros Hsome ->. apply figure_full.
    destruct cryptoData; [congruence | cbn [length]; lia].
Qed.

Lemma coverage_is_a_percentage_witness :
  let with_handle := JObj [("twitter_handle", JStr "bitcoin")] in
  let without := JObj [("twitter_handle", JNull)] in
  let cryptoData := repeat with_handle 23 ++ repeat without 17 in
  (23 <= totalCoins cryptoData)%nat
  /\ figure 23 (totalCoins cryptoData) = of_Z 57.
Proof.
  intros with_handle without cryptoData.
  destruct (coverage_is_a_percentage cryptoData 23 eq_refl)
    as (Hle & (k & Hk & Hbounds) & _).
  split; [exact Hle | vm_compute; reflexivity].
Defined.

Lemma filter_by_repeat (predicate : jsval -> option bool) (coin : jsval)
    (keep : bool) (n : nat) :
  predicate coin = Some keep ->
  filter_by predicate (repeat coin n)
  = Some (if keep then repeat coin n else []).
Proof.
  intros Hcoin. induction n as [|n IH]; [now destruct keep|].
  cbn [repeat filter_by]. rewrite Hcoin, IH. now destruct keep.
Qed.

Lemma percent_of_one (n : nat) : percent n 1 = (100 * Z.of_nat n)%Z.
Proof.
  unfold percent, Math_round. cbn [Nat.ltb Nat.leb].
  assert (Hx: (inject_Z (Z.of_nat n) / inject_Z (Z.of_nat 1) * 100 + (1 # 2)
               == (200 * Z.of_nat n + 1) # 2)%Q).
  { change (Z.of_nat 1) with 1%Z.
    unfold Qeq, Qdiv, Qinv, Qmult, Qplus, inject_Z. cbn. lia. }
  rewrite Hx. unfold Qfloor.
  apply eq_sym, (Z.div_unique _ _ _ 1); lia.
Qed.

Lemma Math_round_Z (m : Z) : Math_round (inject_Z m) = m.
Proof.
  unfold Math_round.
  assert (Hx: (inject_Z m + (1 # 2) == (2 * m + 1) # 2)%Q).
  { unfold Qeq, Qplus, inject_Z. cbn. lia. }
  rewrite Hx. unfold Qfloor.
  apply eq_sym, (Z.div_unique _ _ _ 1); lia.
Qed.

Lemma figure_of_one (n : nat) :
  (100 * Z.of_nat n < 2 ^ 53)%Z ->
  figure n 1 = of_Z (100 * Z.of_nat n).
Proof.
  intros Hbound. unfold figure. cbn [Nat.ltb Nat.leb].
  rewrite (div_counts n 1) by lia.
  rewrite (double_comp _ (inject_Z (Z.of_nat n)))
    by (change (Z.of_nat 1) with 1%Z; unfold Qdiv;
        change (/ inject_Z 1)%Q with (1 : Q); apply Qmult_1_r).
  rewrite double_Z by lia. unfold mul, of_Z.
  rewrite (double_comp _ (inject_Z (100 * Z.of_nat n)))
    by (rewrite inject_Z_mult; apply Qmult_comm).
  rewrite double_Z by lia. cbn [rounded]. unfold of_Z.
  now rewrite Math_round_Z.
Qed.

(** X18: the figure under the counter "Follower Data" is no percentage.
    It divides the coins with follower data by the coins with a handle,
    and nothing ties the two: for every [n] there is data, which the
    store accepts, with one coin with a handle and [n] coins with
    follower data, for which the figure is [100 * n]; the page computes
    this very number as long as it is under 2^53, as it is for every
    array. *)
Theorem scraped_figure_unbounded (stored : list jsval) (n : nat) :
  exists cryptoData,
    Followers.POST (Followers.Json (JObj [("data", JArr cryptoData)])) stored
    = (cryptoData, Ok (S n))
    /\ coinsWithTwitter cryptoData = Some 1%nat
    /\ coinsWithFollowers cryptoData = Some n
    /\ percent n 1 = (100 * Z.of_nat n)%Z
    /\ ((100 * Z.of_nat n < 2 ^ 53)%Z ->
        figure n 1 = of_Z (100 * Z.of_nat n)).
Proof.
  set (marked := JObj [("twitter_handle", JStr "bitcoin");
                       ("followers", JStr "No Twitter")]).
  set (counted := JObj [("twitter_handle", JNull);
                        ("followers", JStr "5.2M")]).
  exists (marked :: repeat counted n).
  split; [cbn; now rewrite repeat_length|].
  split; [|split; [|split; [apply percent_of_one | apply figure_of_one]]].
  - unfold coinsWithTwitter, count_by. cbn [filter_by].
    change (withTwitter marked) with (Some true).
    now rewrite (filter_by_repeat withTwitter counted false n eq_refl).
  - unfold coinsWithFollowers, count_by. cbn [filter_by].
    change (withFollowers marked) with (Some false).
    rewrite (filter_by_repeat withFollowers counted true n eq_refl).
    cbn. now rewrite repeat_length.
Qed.

Lemma sub_NaN_r (k : number) : sub k NaN = NaN.
Proof. now destruct k. Qed.

(** X19: the followers ordering has no answer for a coin without
    handle.  Compared with any record whose followers can be read, in
    either position, a record with the marker "No Twitter" makes the
    comparator return NaN: where such a record ends up in the sorted
    list is left to the sort. *)
Theorem marker_has_no_place (a marked : jsval) (key : number) :
  followersKey a = Some key ->
  get marked "followers" = Some (JStr "No Twitter") ->
  byFollowers a marked = Some NaN /\ byFollowers marked a = Some NaN.
Proof.
  intros Ha Hmarked.
  assert (Hkey: followersKey marked = Some NaN).
  { unfold followersKey. rewrite Hmarked. reflexivity. }
  unfold byFollowers. rewrite Ha, Hkey. cbn.
  split; [reflexivity | now rewrite sub_NaN_r].
Qed.

Lemma marker_has_no_place_witness :
  let a := JObj [("followers", JStr "5.2M")] in
  let marked := JObj [("followers", JStr "No Twitter")] in
  byFollowers a marked = Some NaN /\ byFollowers marked a = Some NaN.
Proof.
  exact (marker_has_no_place (JObj [("followers", JStr "5.2M")])
           (JObj [("followers", JStr "No Twitter")])
           (Fin (5200000 # 1)) eq_refl eq_refl).
Defined.

Lemma lower_lower (c : ascii) : lower (lower c) = lower c.
Proof.
  destruct c as [[] [] [] [] [] [] [] []]; reflexivity.
Qed.

Lemma toLowerCase_twice (s : string) :
  toLowerCase (toLowerCase s) = toLowerCase s.
Proof.
  induction s as [|c s IH]; [reflexivity|].
  cbn [toLowerCase]. now rewrite lower_lower, IH.
Qed.

(** X20: the search does not see the case of the term: a term and its
    lower-case form select the same records, and fault on the same
    records. *)
Theorem search_ignores_case (searchTerm : string) (cryptoData : list jsval) :
  filter_by (matches (toLowerCase searchTerm)) cryptoData
  = filter_by (matches searchTerm) cryptoData.
Proof.
  assert (Hfield: forall coin field,
             field_includes coin field (toLowerCase searchTerm)
             = field_includes coin field searchTerm).
  { intros coin field. unfold field_includes.
    now rewrite toLowerCase_twice. }
  induction cryptoData as [|coin rest IH]; [reflexivity|].
  cbn [filter_by]. rewrite IH. unfold matches. now rewrite !Hfield.
Qed.

Lemma includes_empty (s : string) : includes EmptyString s = true.
Proof. now destruct s. Qed.

(** X21: the empty search term, the one of a fresh page, hides no
    record that has a name: on data whose records all carry a text as
    [coin_name] the filter returns the data itself. *)
Theorem empty_search_keeps_all (cryptoData : list jsval) :
  Forall (fun coin => exists name, get coin "coin_name" = Some (JStr name))
         cryptoData ->
  filter_by (matches EmptyString) cryptoData = Some cryptoData.
Proof.
  induction 1 as [|coin rest [name Hname] _ IH]; [reflexivity|].
  cbn [filter_by]. unfold matches at 1, field_includes at 1.
  rewrite Hname. cbn [mbind option_bind toLowerCase].
  rewrite includes_empty, IH. reflexivity.
Qed.

Lemma empty_search_keeps_all_witness :
  let cryptoData := [ JObj [("coin_name", JStr "Bitcoin")];
                      JObj [("coin_name", JStr "Ethereum")] ] in
  filter_by (matches EmptyString) cryptoData = Some cryptoData.
Proof.
  apply empty_search_keeps_all.
  repeat constructor; eexists; reflexivity.
Defined.

(** X22: a stored record that is [null] breaks the page.  The store
    accepts any array; once it holds one with a [null] item, the read
    returns it as it is, and the filter of the dashboard faults on it
    for every search term. *)
Theorem null_record_breaks_search (loaded : nat -> string)
    (cryptoData stored : list jsval) (searchTerm : string) :
  In JNull cryptoData ->
  let committed :=
    fst (Followers.POST (Followers.Json (JObj [("data", JArr cryptoData)]))
           stored) in
  Followers.GET loaded committed = cryptoData
  /\ filter_by (matches searchTerm) (Followers.GET loaded committed) = None.
Proof.
  intros Hnull. cbn.
  assert (Hget: Followers.GET loaded cryptoData = cryptoData).
  { unfold Followers.GET. destruct cryptoData; [destruct Hnull | reflexivity]. }
  rewrite Hget. split; [reflexivity|].
  induction cryptoData as [|coin rest IH]; [destruct Hnull|].
  cbn [filter_by]. destruct Hnull as [-> | Hrest]; [reflexivity|].
  destruct (matches searchTerm coin); [|reflexivity].
  rewrite IH; [reflexivity | exact Hrest |].
  unfold Followers.GET. destruct rest; [destruct Hrest | reflexivity].
Qed.

Lemma null_record_breaks_search_witness :
  filter_by (matches "bit")
    (Followers.GET (fun _ => noon)
       (fst (Followers.POST
               (Followers.Json
                  (JObj [("data", JArr [JObj [("coin_name", JStr "Bitcoin")];
                                        JNull])]))
               []))) = None.
Proof.
  exact (proj2 (null_record_breaks_search (fun _ => noon)
                  [JObj [("coin_name", JStr "Bitcoin")]; JNull] [] "bit"
                  (or_intror (or_introl eq_refl)))).
Defined.
